(** * Calendar-driven scheduling and meeting matching

    A shallow embedding of the scheduling core of the meeting automator
    ([src/scheduler.ts], [src/state.ts], [src/calendar.ts]) together with
    the properties its specification states about it.

    Conventions of the embedding.
    - Instants ([Date.getTime()], [Date.now()]) and durations are integer
      milliseconds, modelled in [Z].  A [Date] built from a string that
      does not parse has [getTime() = NaN]; such a number is [None] in
      [option Z], and every comparison with it is false, as in JavaScript.
    - A JavaScript string is a sequence of UTF-16 code units.  The model
      uses [string], whose characters are 8-bit; it therefore describes
      exactly the strings whose code units are all below 256 (Latin-1).
    - A function that may throw returns a [Completion]; awaiting a
      rejected promise is a throw at the [await].
    - The event loop runs one callback at a time, each to its next
      [await] or to its end.  A callback of the scheduler is therefore a
      sequence of turns; between two of them any other turn may take
      place.  Within one turn [Date.now()] does not advance.
    - Values have their declared TypeScript types.  Console output is
      left out. *)

From Stdlib Require Import ZArith Ascii String List Bool Lia.
From stdpp Require Import base decidable list strings gmap pretty.

Local Open Scope Z_scope.

(** ** JavaScript string primitives used by the matcher *)

Module Js.

(** [String.prototype.toLowerCase] on one code unit below 256: the
    letters A-Z and the Latin-1 capitals U+00C0..U+00DE (U+00D7, the
    multiplication sign, excepted) move up by 32. *)
Definition lower_unit (c : ascii) : ascii :=
  let n := N_of_ascii c in
  if ((65 <=? n) && (n <=? 90) ||
      (192 <=? n) && (n <=? 222) && negb (n =? 215))%N
  then ascii_of_N (n + 32) else c.

Fixpoint toLowerCase (s : string) : string :=
  match s with
  | EmptyString => EmptyString
  | String c r => String (lower_unit c) (toLowerCase r)
  end.

(** White space and line terminators below 256: TAB, LF, VT, FF, CR,
    SPACE and NO-BREAK SPACE. *)
Definition is_space (c : ascii) : bool :=
  let n := N_of_ascii c in
  ((9 <=? n) && (n <=? 13) || (n =? 32) || (n =? 160))%N.

Fixpoint trimStart (s : string) : string :=
  match s with
  | EmptyString => EmptyString
  | String c r => if is_space c then trimStart r else s
  end.

Fixpoint trimEnd (s : string) : string :=
  match s with
  | EmptyString => EmptyString
  | String c r =>
      match trimEnd r with
      | EmptyString => if is_space c then EmptyString else String c EmptyString
      | r' => String c r'
      end
  end.

Definition trim (s : string) : string := trimEnd (trimStart s).

(** [s.includes(sub)]: [sub] occurs in [s] at some position. *)
Fixpoint includes (s sub : string) : bool :=
  String.prefix sub s ||
  match s with
  | EmptyString => false
  | String _ r => includes r sub
  end.

(** [Math.abs(a - b)] on numbers that may be [NaN]. *)
Definition abs_diff (a b : option Z) : option Z :=
  match a, b with
  | Some x, Some y => Some (Z.abs (x - y))
  | _, _ => None
  end.

(** [a < c] for a number [a] that may be [NaN] and a constant [c]. *)
Definition num_lt (a : option Z) (c : Z) : bool :=
  match a with
  | Some x => x <? c
  | None => false
  end.

(** [a - b] on numbers that may be [NaN]. *)
Definition num_sub (a b : option Z) : option Z :=
  match a, b with
  | Some x, Some y => Some (x - y)
  | _, _ => None
  end.

Section Sort.
Context {A : Type}.
(** The comparator of [Array.prototype.sort]: a negative, zero or
    positive number; a [NaN] result counts as zero. *)
Variable cmp : A -> A -> option Z.

Definition sorts_after (x y : A) : bool :=
  match cmp x y with
  | Some v => 0 <? v
  | None => false
  end.

(** [Array.prototype.sort] is a stable sort (ECMAScript 2019): elements
    that compare equal keep their relative order.  For a comparator
    that is a difference of keys the sorted array is unique, and this
    insertion sort computes it. *)
Fixpoint insert_stable (x : A) (l : list A) : list A :=
  match l with
  | [] => [x]
  | y :: r => if sorts_after x y then y :: insert_stable x r else x :: l
  end.

Fixpoint sort (l : list A) : list A :=
  match l with
  | [] => []
  | x :: r => insert_stable x (sort r)
  end.
End Sort.

End Js.

(** ** Data model *)

(** [CalendarEvent] of [src/calendar.ts]. *)
Record CalendarEvent := {
  ev_id : string;
  summary : string;
  ev_start : Z;
  ev_end : Z;
  calendarName : string;
}.

(** [GranolaDocument] of [src/types.ts].  [created_at] and [updated_at]
    hold the value of [new Date(field).getTime()]: the ISO string of the
    source is read only through that expression.  [panel] is the Markdown
    rendering of [last_viewed_panel], the empty string when the panel is
    absent. *)
Record GranolaDocument := {
  doc_id : string;
  title : string;
  created_at : option Z;
  updated_at : option Z;
  panel : string;
}.

(** ** The matcher: [findMatchingDoc] of [src/scheduler.ts] *)

Definition TWO_HOURS : Z := 2 * 60 * 60 * 1000.
Definition THIRTY_MINUTES : Z := 30 * 60 * 1000.

Definition timeDiff (eventStart : Z) (doc : GranolaDocument) : option Z :=
  Js.abs_diff (created_at doc) (Some eventStart).

Definition titleRelated (eventTitle : string) (doc : GranolaDocument) : bool :=
  let docTitle := Js.trim (Js.toLowerCase (title doc)) in
  String.eqb docTitle eventTitle ||
  Js.includes docTitle eventTitle ||
  Js.includes eventTitle docTitle.

Definition eventTitle (event : CalendarEvent) : string :=
  Js.trim (Js.toLowerCase (summary event)).

(** The predicate of the first [filter]. *)
Definition isTitleMatch (event : CalendarEvent) (doc : GranolaDocument) : bool :=
  let withinWindow := Js.num_lt (timeDiff (ev_start event) doc) TWO_HOURS in
  withinWindow && titleRelated (eventTitle event) doc.

(** The predicate of the fallback [filter]. *)
Definition isTimeMatch (event : CalendarEvent) (doc : GranolaDocument) : bool :=
  Js.num_lt (timeDiff (ev_start event) doc) THIRTY_MINUTES.

(** The comparator shared by both [sort] calls: [diffA - diffB]. *)
Definition byTimeDiff (event : CalendarEvent) (a b : GranolaDocument) : option Z :=
  Js.num_sub (timeDiff (ev_start event) a) (timeDiff (ev_start event) b).

Definition titleMatches (docs : list GranolaDocument) (event : CalendarEvent)
  : list GranolaDocument :=
  List.filter (isTitleMatch event) docs.

Definition timeMatches (docs : list GranolaDocument) (event : CalendarEvent)
  : list GranolaDocument :=
  Js.sort (byTimeDiff event) (List.filter (isTimeMatch event) docs).

Definition findMatchingDoc (docs : list GranolaDocument) (event : CalendarEvent)
  : option GranolaDocument :=
  let found := titleMatches docs event in
  if (0 <? length found)%nat
  then head (Js.sort (byTimeDiff event) found)
  else head (timeMatches docs event).

(** The absolute time difference of a document from the start of the
    event (0 for a document without a readable creation time; such a
    document passes neither filter). *)
Definition distance (event : CalendarEvent) (doc : GranolaDocument) : Z :=
  default 0 (timeDiff (ev_start event) doc).

(** The first listed element of least key, found from the right: what a
    stable sort by [key] puts in front. *)
Fixpoint firstLeast {A : Type} (key : A -> Z) (l : list A) : option A :=
  match l with
  | [] => None
  | x :: r =>
      match firstLeast key r with
      | Some m => if key m <? key x then Some m else Some x
      | None => Some x
      end
  end.

(** ** Completions *)

(** The outcome of a call that may throw (for an [async] function: of
    awaiting its promise). *)
Inductive Completion (A : Type) : Type :=
| Normal (value : A)
| Throw (err : string).
Arguments Normal {A} value.
Arguments Throw {A} err.

Definition completes {A : Type} (c : Completion A) : bool :=
  match c with Normal _ => true | Throw _ => false end.

(** ** The dedup store: [src/state.ts] *)

Record State := {
  processedIds : list string;
  lastPollAt : Z;
}.

(** What [JSON.parse] makes of the text of the state file: a syntax error,
    or a value of the declared type [State] (the only values that
    [writeState] puts there). *)
Inductive FileText :=
| Garbage
| Json (st : State).

(** The backing file [~/.granola-automator-state.json]. *)
Inductive StateFile :=
| Absent
| Unreadable
| Readable (text : FileText).

Definition existsSync (f : StateFile) : bool :=
  match f with Absent => false | _ => true end.

Definition readFileSync (f : StateFile) : Completion FileText :=
  match f with
  | Readable text => Normal text
  | Unreadable => Throw "EACCES"
  | Absent => Throw "ENOENT"
  end.

Definition JSON_parse (text : FileText) : Completion State :=
  match text with
  | Json st => Normal st
  | Garbage => Throw "SyntaxError"
  end.

(** [{ processedIds: [], lastPollAt: new Date(0).toISOString() }] *)
Definition freshState : State := {| processedIds := []; lastPollAt := 0 |}.

Definition readState (f : StateFile) : State :=
  if negb (existsSync f) then freshState
  else
    (* try { return JSON.parse(readFileSync(...)) } catch { return fresh } *)
    match readFileSync f with
    | Normal text =>
        match JSON_parse text with
        | Normal st => st
        | Throw _ => freshState
        end
    | Throw _ => freshState
    end.

(** [writeFileSync(STATE_FILE, JSON.stringify(state))]; the write itself
    is taken to succeed. *)
Definition writeState (st : State) : StateFile := Readable (Json st).

(** [processedIds.includes(meetingId)] *)
Definition includesId (ids : list string) (meetingId : string) : bool :=
  bool_decide (meetingId ∈ ids).

Definition isProcessed (f : StateFile) (meetingId : string) : bool :=
  includesId (processedIds (readState f)) meetingId.

(** [ids.slice(-n)]: the last [n] elements (all of them when there are
    fewer). *)
Definition slice_last (n : nat) (ids : list string) : list string :=
  drop (length ids - n) ids.

Definition MAX_IDS : nat := 500.

Definition markProcessed (now : Z) (meetingId : string) (f : StateFile) : StateFile :=
  let state := readState f in
  if negb (includesId (processedIds state) meetingId) then
    let pushed := processedIds state ++ [meetingId] in
    let kept := if (MAX_IDS <? length pushed)%nat
                then slice_last MAX_IDS pushed else pushed in
    writeState {| processedIds := kept; lastPollAt := now |}
  else f.

Definition getLastPollTime (f : StateFile) : Z := lastPollAt (readState f).

Definition resetState : StateFile := writeState freshState.

(** The store after a sequence of [markProcessed] calls, each with the
    time at which it is made. *)
Definition markAll (calls : list (Z * string)) (f : StateFile) : StateFile :=
  fold_left (fun file call => markProcessed (fst call) (snd call) file) calls f.

(** ** The calendar source: [src/calendar.ts] *)

Definition APPLE_EPOCH_OFFSET : Z := 978307200.

(** [new Date((appleTimestamp + APPLE_EPOCH_OFFSET) * 1000)], for a
    timestamp in whole seconds. *)
Definition toJsDate (appleTimestamp : Z) : Z :=
  (appleTimestamp + APPLE_EPOCH_OFFSET) * 1000.

Record Row := {
  ROWID : Z;
  ZSUMMARY : string;
  ZSTARTDATE : Z;
  ZENDDATE : Z;
  ZTITLE : option string;
}.

(** The query text is fixed but for the two bounds of the day. *)
Record Sql := { startApple : Z; endApple : Z }.

Inductive Command :=
| Sqlite3 (dbPath : string) (sql : Sql)
| Cp (src dst : string).

(** What the calendar module sees of the machine it runs on. *)
Record Host := {
  homedir : string;
  pathExists : string -> bool;
  execSync : Command -> Completion string;
  parseJson : string -> Completion (list Row);
  localMidnight : Z -> Z;
}.

Definition join (segments : list string) : string := String.concat "/" segments.

Definition dbPaths (h : Host) : list string :=
  [ join [homedir h; "Library"; "Group Containers"; "group.com.apple.calendar";
          "Calendar.sqlitedb"];
    join [homedir h; "Library"; "Calendars"; "Calendar.sqlitedb"] ]%string.

Definition getDbPath (h : Host) : Completion string :=
  match List.find (pathExists h) (dbPaths h) with
  | Some found => Normal found
  | None => Throw "macOS Calendar database not found."
  end.

Definition runQuery (h : Host) (dbPath : string) (sql : Sql) : Completion string :=
  match execSync h (Sqlite3 dbPath sql) with
  | Normal out => Normal (Js.trim out)
  | Throw e => Throw e
  end.

Definition rowToEvent (row : Row) : CalendarEvent :=
  {| ev_id := pretty (ROWID row);
     summary := ZSUMMARY row;
     ev_start := toJsDate (ZSTARTDATE row);
     ev_end := toJsDate (ZENDDATE row);
     calendarName := default "Unknown"%string (ZTITLE row) |}.

Definition parseRows (h : Host) (raw : string) : Completion (list CalendarEvent) :=
  if String.eqb raw EmptyString then Normal []
  else
    match parseJson h raw with
    | Normal rows => Normal (map rowToEvent rows)
    | Throw e => Throw e
    end.

Definition tmpDb : string := "/tmp/granola-automator-cal-cache.sqlitedb".

Definition todaySql (h : Host) (now : Z) : Sql :=
  let startOfDay := localMidnight h now in
  let endOfDay := startOfDay + 24 * 60 * 60 * 1000 in
  {| startApple := startOfDay / 1000 - APPLE_EPOCH_OFFSET;
     endApple := endOfDay / 1000 - APPLE_EPOCH_OFFSET |}.

(** The body of the outer [try]. *)
Definition queryDirect (h : Host) (dbPath : string) (sql : Sql)
  : Completion (list CalendarEvent) :=
  match runQuery h dbPath sql with
  | Normal raw => parseRows h raw
  | Throw e => Throw e
  end.

(** The body of the inner [try]: copy the database, query the copy. *)
Definition queryCopy (h : Host) (dbPath : string) (sql : Sql)
  : Completion (list CalendarEvent) :=
  match execSync h (Cp dbPath tmpDb) with
  | Normal _ => queryDirect h tmpDb sql
  | Throw e => Throw e
  end.

Definition fetchTodaysEvents (h : Host) (now : Z) : Completion (list CalendarEvent) :=
  match getDbPath h with
  | Throw e => Throw e
  | Normal dbPath =>
      let sql := todaySql h now in
      match queryDirect h dbPath sql with
      | Normal events => Normal events
      | Throw _ =>
          match queryCopy h dbPath sql with
          | Normal events => Normal events
          | Throw _ => Normal []
          end
      end
  end.

(** ** The scheduler: [src/scheduler.ts] *)

(** The two fields of [Config] the scheduler reads. *)
Record Config := {
  delayAfterMeetingMs : Z;
  calendarRefreshMs : Z;
}.

(** [MeetingData] of [src/types.ts]. *)
Record MeetingData := {
  md_id : string;
  md_title : string;
  createdAt : option Z;
  updatedAt : option Z;
  notesMarkdown : string;
  transcript : string;
}.

(** What [granola.fetchMeeting(doc)] returns once the transcript of the
    document has arrived. *)
Definition fetchMeeting (doc : GranolaDocument) (formatted : string) : MeetingData :=
  {| md_id := doc_id doc;
     md_title := title doc;
     createdAt := created_at doc;
     updatedAt := updated_at doc;
     notesMarkdown := panel doc;
     transcript := formatted |}.

(** The two functions handed to [setTimeout].  Both close over [config]
    and [granola], which never change, and over the event. *)
Inductive Callback :=
| OnMeetingEnded (event : CalendarEvent)
| OnRetry (event : CalendarEvent).

Record Timer := {
  due : Z;
  callback : Callback;
}.

(** An [async] callback suspended at one of its three [await]s. *)
Inductive Suspended :=
| AwaitDocuments (event : CalendarEvent)
| AwaitMeeting (event : CalendarEvent) (matchingDoc : GranolaDocument)
| AwaitPipeline (event : CalendarEvent) (matchingDoc : GranolaDocument)
    (meeting : MeetingData).

(** The process: the module-level set [scheduledEventIds], the state
    file, the timers of the event loop and the suspended callbacks.
    [pipelineCalls] records every call of [processMeeting], with the id
    of the event it was made for; [clock] is the value of [Date.now()].
    Console output is not modelled. *)
Record Scheduler := {
  clock : Z;
  scheduledEventIds : gset string;
  stateFile : StateFile;
  timers : list Timer;
  suspended : list Suspended;
  pipelineCalls : list (string * MeetingData);
}.

Definition with_clock (now : Z) (s : Scheduler) : Scheduler :=
  {| clock := now; scheduledEventIds := scheduledEventIds s;
     stateFile := stateFile s; timers := timers s;
     suspended := suspended s; pipelineCalls := pipelineCalls s |}.

Definition with_scheduled (ids : gset string) (s : Scheduler) : Scheduler :=
  {| clock := clock s; scheduledEventIds := ids;
     stateFile := stateFile s; timers := timers s;
     suspended := suspended s; pipelineCalls := pipelineCalls s |}.

Definition with_stateFile (f : StateFile) (s : Scheduler) : Scheduler :=
  {| clock := clock s; scheduledEventIds := scheduledEventIds s;
     stateFile := f; timers := timers s;
     suspended := suspended s; pipelineCalls := pipelineCalls s |}.

Definition with_timers (ts : list Timer) (s : Scheduler) : Scheduler :=
  {| clock := clock s; scheduledEventIds := scheduledEventIds s;
     stateFile := stateFile s; timers := ts;
     suspended := suspended s; pipelineCalls := pipelineCalls s |}.

Definition with_suspended (ps : list Suspended) (s : Scheduler) : Scheduler :=
  {| clock := clock s; scheduledEventIds := scheduledEventIds s;
     stateFile := stateFile s; timers := timers s;
     suspended := ps; pipelineCalls := pipelineCalls s |}.

Definition with_pipelineCalls (cs : list (string * MeetingData)) (s : Scheduler)
  : Scheduler :=
  {| clock := clock s; scheduledEventIds := scheduledEventIds s;
     stateFile := stateFile s; timers := timers s;
     suspended := suspended s; pipelineCalls := cs |}.

(** *** Statements of the callbacks, as state transformers that may throw *)

Definition M (A : Type) : Type := Scheduler -> Completion A * Scheduler.

Definition ret {A : Type} (a : A) : M A := fun s => (Normal a, s).

Definition bind {A B : Type} (m : M A) (k : A -> M B) : M B :=
  fun s =>
    match m s with
    | (Normal a, s') => k a s'
    | (Throw e, s') => (Throw e, s')
    end.

Declare Scope sched_scope.
Delimit Scope sched_scope with sched.
Notation "x <- m ;; k" := (bind m (fun x => k))
  (at level 20, m at level 99, k at level 200, only parsing) : sched_scope.
Notation "m ;; k" := (bind m (fun _ => k))
  (at level 100, k at level 200, only parsing, right associativity) : sched_scope.
Local Open Scope sched_scope.

(** [try { body } catch (err) { handler }] *)
Definition try_catch {A : Type} (body : M A) (handler : string -> M A) : M A :=
  fun s =>
    match body s with
    | (Throw e, s') => handler e s'
    | done => done
    end.

(** [await promise], once the promise has settled with [r]. *)
Definition await {A : Type} (r : Completion A) : M A := fun s => (r, s).

Definition Date_now : M Z := fun s => (Normal (clock s), s).

Definition scheduled_has (id : string) : M bool :=
  fun s => (Normal (bool_decide (id ∈ scheduledEventIds s)), s).

Definition scheduled_add (id : string) : M unit :=
  fun s => (Normal tt, with_scheduled ({[ id ]} ∪ scheduledEventIds s) s).

Definition scheduled_delete (id : string) : M unit :=
  fun s => (Normal tt, with_scheduled (scheduledEventIds s ∖ {[ id ]}) s).

Definition isProcessedM (id : string) : M bool :=
  fun s => (Normal (isProcessed (stateFile s) id), s).

Definition markProcessedM (id : string) : M unit :=
  fun s => (Normal tt, with_stateFile (markProcessed (clock s) id (stateFile s)) s).

(** Node's timers: a delay outside [1 .. 2^31 - 1] is replaced by 1. *)
Definition TIMEOUT_MAX : Z := 2147483647.

Definition timerDelay (delay : Z) : Z :=
  if (1 <=? delay) && (delay <=? TIMEOUT_MAX) then delay else 1.

Definition setTimeout (cb : Callback) (delay : Z) : M unit :=
  fun s =>
    (Normal tt,
     with_timers (timers s ++ [ {| due := clock s + timerDelay delay; callback := cb |} ]) s).

(** The callback stops at an [await]; it resumes when the promise
    settles. *)
Definition suspend (p : Suspended) : M unit :=
  fun s => (Normal tt, with_suspended (suspended s ++ [p]) s).

(** The call [processMeeting(config, meeting)]. *)
Definition callPipeline (eventId : string) (meeting : MeetingData) : M unit :=
  fun s => (Normal tt, with_pipelineCalls (pipelineCalls s ++ [(eventId, meeting)]) s).

Definition FLOOR_DELAY : Z := 30000.
Definition RETRY_DELAY : Z := 2 * 60 * 1000.

(** [scheduleProcessing(config, granola, event)].  The client [granola]
    is the same in every call; what its calls return enters the model
    where the callback resumes ([Outcome] below). *)
Definition scheduleProcessing (config : Config) (event : CalendarEvent) : M unit :=
  tracked <- scheduled_has (ev_id event) ;;
  if tracked then ret tt
  else
    processed <- isProcessedM (ev_id event) ;;
    if processed then ret tt
    else
      now <- Date_now ;;
      let triggerAt := ev_end event + delayAfterMeetingMs config in
      let delayMs := triggerAt - now in
      let effectiveDelay := Z.max delayMs FLOOR_DELAY in
      scheduled_add (ev_id event) ;;
      setTimeout (OnMeetingEnded event) effectiveDelay.

(** [{ ...event, end: new Date() }] *)
Definition endedAt (now : Z) (event : CalendarEvent) : CalendarEvent :=
  {| ev_id := ev_id event; summary := summary event; ev_start := ev_start event;
     ev_end := now; calendarName := calendarName event |}.

(** What a timer does when it elapses. *)
Definition runCallback (config : Config) (cb : Callback) : M unit :=
  match cb with
  | OnMeetingEnded event =>
      (* the [try] block opens with [await granola.fetchDocuments(20)] *)
      suspend (AwaitDocuments event)
  | OnRetry event =>
      scheduled_delete (ev_id event) ;;
      now <- Date_now ;;
      scheduleProcessing config (endedAt now event)
  end.

(** The [catch] block of the meeting-ended callback. *)
Definition onFailure (event : CalendarEvent) (err : string) : M unit :=
  scheduled_delete (ev_id event).

(** From [await granola.fetchDocuments(20)] to the next [await]. *)
Definition afterDocuments (event : CalendarEvent)
    (r : Completion (list GranolaDocument)) : M unit :=
  try_catch
    (docs <- await r ;;
     match findMatchingDoc docs event with
     | None => scheduled_delete (ev_id event)
     | Some matchingDoc =>
         processed <- isProcessedM (doc_id matchingDoc) ;;
         if processed then markProcessedM (ev_id event)
         else suspend (AwaitMeeting event matchingDoc)
     end)
    (onFailure event).

Definition notReady (meeting : MeetingData) : bool :=
  String.eqb (notesMarkdown meeting) EmptyString &&
  String.eqb (transcript meeting) EmptyString.

(** From [await granola.fetchMeeting(matchingDoc)] to the next [await]. *)
Definition afterMeeting (event : CalendarEvent) (matchingDoc : GranolaDocument)
    (r : Completion string) : M unit :=
  try_catch
    (formatted <- await r ;;
     let meeting := fetchMeeting matchingDoc formatted in
     if notReady meeting then
       scheduled_delete (ev_id event) ;;
       setTimeout (OnRetry event) RETRY_DELAY
     else
       callPipeline (ev_id event) meeting ;;
       suspend (AwaitPipeline event matchingDoc meeting))
    (onFailure event).

(** From [await processMeeting(config, meeting)] to the end. *)
Definition afterPipeline (event : CalendarEvent) (matchingDoc : GranolaDocument)
    (r : Completion unit) : M unit :=
  try_catch
    (await r ;;
     markProcessedM (ev_id event) ;;
     markProcessedM (doc_id matchingDoc))
    (onFailure event).

(** How a promise settles. *)
Inductive Outcome :=
| Documents (r : Completion (list GranolaDocument))
| Transcript (r : Completion string)
| Pipeline (r : Completion unit).

Definition resume (p : Suspended) (o : Outcome) : option (M unit) :=
  match p, o with
  | AwaitDocuments event, Documents r => Some (afterDocuments event r)
  | AwaitMeeting event doc, Transcript r => Some (afterMeeting event doc r)
  | AwaitPipeline event doc _, Pipeline r => Some (afterPipeline event doc r)
  | _, _ => None
  end.

Fixpoint forEach {A : Type} (f : A -> M unit) (l : list A) : M unit :=
  match l with
  | [] => ret tt
  | x :: r => f x ;; forEach f r
  end.

(** [refreshSchedule], resumed with the result of [fetchTodaysEvents]. *)
Definition refreshSchedule (config : Config)
    (fetched : Completion (list CalendarEvent)) : M unit :=
  try_catch
    (events <- await fetched ;;
     if (length events =? 0)%nat then ret tt
     else forEach (scheduleProcessing config) events)
    (fun _ => ret tt).

(** *** The event loop *)

Inductive Input :=
| Refresh (fetched : Completion (list CalendarEvent))
| Timeout (k : nat)
| Settle (k : nat) (o : Outcome).

(** One turn of the event loop at time [now].  [None]: the turn cannot
    happen (time does not run backwards, a timer does not elapse before
    it is due, a promise settles with a value of its own kind). *)
Definition step (config : Config) (now : Z) (i : Input) (s : Scheduler)
  : option (Completion unit * Scheduler) :=
  if now <? clock s then None
  else
    let s := with_clock now s in
    match i with
    | Refresh fetched => Some (refreshSchedule config fetched s)
    | Timeout k =>
        match timers s !! k with
        | Some t =>
            if due t <=? now
            then Some (runCallback config (callback t)
                         (with_timers (delete k (timers s)) s))
            else None
        | None => None
        end
    | Settle k o =>
        match suspended s !! k with
        | Some p =>
            match resume p o with
            | Some m => Some (m (with_suspended (delete k (suspended s)) s))
            | None => None
            end
        | None => None
        end
    end.

(** A run: the turns of the list, in order; it stops at a turn that
    cannot happen or whose callback throws. *)
Fixpoint run (config : Config) (turns : list (Z * Input)) (s : Scheduler)
  : option Scheduler :=
  match turns with
  | [] => Some s
  | (now, i) :: rest =>
      match step config now i s with
      | Some (Normal _, s') => run config rest s'
      | _ => None
      end
  end.

(** The process at start-up, at time [now], over the state file [f]. *)
Definition startup (now : Z) (f : StateFile) : Scheduler :=
  {| clock := now; scheduledEventIds := ∅; stateFile := f;
     timers := []; suspended := []; pipelineCalls := [] |}.

(** *** Counting the tasks of an event *)


Definition suspendedEvent (p : Suspended) : CalendarEvent :=
  match p with
  | AwaitDocuments e => e
  | AwaitMeeting e _ => e
  | AwaitPipeline e _ _ => e
  end.


(** A meeting-ended timer: a task armed by [scheduleProcessing]. *)
Definition armedFor (id : string) (t : Timer) : bool :=
  match callback t with
  | OnMeetingEnded e => String.eqb (ev_id e) id
  | OnRetry _ => false
  end.


Definition suspendedFor (id : string) (p : Suspended) : bool :=
  String.eqb (ev_id (suspendedEvent p)) id.

Definition count {A : Type} (f : A -> bool) (l : list A) : nat :=
  length (List.filter f l).



(** The scheduled tasks of an event: its armed timers and its callbacks
    in flight. *)
Definition scheduledTasks (id : string) (s : Scheduler) : nat :=
  (count (armedFor id) (timers s) + count (suspendedFor id) (suspended s))%nat.





(** Retry timers in the event loop. *)
Definition retryTimers (s : Scheduler) : list Timer :=
  List.filter (fun t => match callback t with OnRetry _ => true | _ => false end)
    (timers s).

(** The scheduler with nothing pending but a retry timer for [e]. *)
Definition awaitingRetry (clk due0 : Z) (e : CalendarEvent) (f : StateFile)
    (ids : gset string) : Scheduler :=
  {| clock := clk; scheduledEventIds := ids; stateFile := f;
     timers := [ {| due := due0; callback := OnRetry e |} ];
     suspended := []; pipelineCalls := [] |}.

(** One round of retrying: the retry timer elapses at [t]; the timer it
    arms elapses after the configured delay; the documents arrive, and
    then an empty transcript. *)
Definition retryRound (config : Config) (docs : list GranolaDocument) (t : Z)
  : list (Z * Input) :=
  let fire := t + Z.max (delayAfterMeetingMs config) FLOOR_DELAY in
  [ (t, Timeout 0%nat);
    (fire, Timeout 0%nat);
    (fire, Settle 0%nat (Documents (Normal docs)));
    (fire, Settle 0%nat (Transcript (Normal EmptyString))) ].

Fixpoint retryRounds (config : Config) (docs : list GranolaDocument) (n : nat)
    (t : Z) : list (Z * Input) :=
  match n with
  | O => []
  | S n' =>
      retryRound config docs t ++
      retryRounds config docs n'
        (t + Z.max (delayAfterMeetingMs config) FLOOR_DELAY + RETRY_DELAY)
  end.

(** ** Statements of the specification that the code does not meet *)

(** "Ties broken by earliest creation time": of two survivors of the
    title step at the same distance, the one returned was created no
    later than the other. *)
Definition tiesGoToEarliestCreated : Prop :=
  forall (docs : list GranolaDocument) (ev : CalendarEvent)
         (d d' : GranolaDocument) (t t' : Z),
    findMatchingDoc docs ev = Some d ->
    d ∈ titleMatches docs ev -> d' ∈ titleMatches docs ev ->
    created_at d = Some t -> created_at d' = Some t' ->
    Z.abs (t - ev_start ev) = Z.abs (t' - ev_start ev) ->
    t <= t'.


(** ** Concrete data used by the examples *)

Module Sample.
Definition T : Z := 1700000000000.
Definition minutes (n : Z) : Z := n * 60 * 1000.

(** "Sprint Planning", from [T] to [T + 30min]. *)
Definition event : CalendarEvent :=
  {| ev_id := "41"; summary := "Sprint Planning"; ev_start := T;
     ev_end := T + minutes 30; calendarName := "Work" |}.

Definition mkDoc (i t : string) (created : Z) (notes : string) : GranolaDocument :=
  {| doc_id := i; title := t; created_at := Some created;
     updated_at := Some created; panel := notes |}.

Definition planning : GranolaDocument :=
  mkDoc "d1" "sprint planning" (T + minutes 10) EmptyString.
Definition random : GranolaDocument :=
  mkDoc "d2" "Random Sync" (T + minutes 5) EmptyString.

(** Two same-titled documents, ten minutes after and ten minutes
    before the start. *)
Definition after10 : GranolaDocument :=
  mkDoc "late" "Sprint Planning" (T + minutes 10) "notes".
Definition before10 : GranolaDocument :=
  mkDoc "early" "Sprint Planning" (T - minutes 10) "notes".

(** Same-titled documents exactly two hours and exactly thirty minutes
    after the start. *)
Definition at2h : GranolaDocument :=
  mkDoc "edge2h" "Sprint Planning" (T + minutes 120) "notes".
Definition at30m : GranolaDocument :=
  mkDoc "edge30" "Weekly" (T + minutes 30) "notes".

(** The reference configuration: five minutes after the end, a refresh
    every thirty minutes. *)
Definition config : Config :=
  {| delayAfterMeetingMs := minutes 5; calendarRefreshMs := minutes 30 |}.
(** A full store: the ids 0 to 499, in the order they were marked. *)
Definition fullStore : StateFile :=
  writeState {| processedIds := map (fun n => pretty (Z.of_nat n)) (seq 0 500);
                lastPollAt := 0 |}.

(** The event's callback suspended at [await processMeeting(...)], six
    minutes after the end of the meeting. *)
Definition inPipeline : Scheduler :=
  {| clock := T + minutes 36;
     scheduledEventIds := {[ "41"%string ]};
     stateFile := Absent;
     timers := [];
     suspended := [AwaitPipeline event after10 (fetchMeeting after10 "[10:00] You: hi")];
     pipelineCalls := [("41"%string, fetchMeeting after10 "[10:00] You: hi")] |}.

(** A fire that finds the matching document without notes or transcript,
    its retry two minutes later, and the fire that the retry arms, which
    finds the document still empty. *)
Definition firstAttempt : list (Z * Input) :=
  [ (T, Refresh (Normal [event]));
    (T + minutes 35, Timeout 0%nat);
    (T + minutes 35, Settle 0%nat (Documents (Normal [planning; random])));
    (T + minutes 35, Settle 0%nat (Transcript (Normal EmptyString))) ].

Definition retryAttempt : list (Z * Input) :=
  [ (T + minutes 37, Timeout 0%nat);
    (T + minutes 42, Timeout 0%nat);
    (T + minutes 42, Settle 0%nat (Documents (Normal [planning; random])));
    (T + minutes 42, Settle 0%nat (Transcript (Normal EmptyString))) ].

(** The fire of an armed event that finds notes, and a pipeline that
    succeeds. *)
Definition successfulFire : list (Z * Input) :=
  [ (T + minutes 35, Timeout 0%nat);
    (T + minutes 35, Settle 0%nat (Documents (Normal [after10; random])));
    (T + minutes 36, Settle 0%nat (Transcript (Normal "[10:00] You: hi")));
    (T + minutes 37, Settle 0%nat (Pipeline (Normal tt))) ].

(** The same event, reissued by the calendar with a later end. *)
Definition eventMoved : CalendarEvent :=
  {| ev_id := "41"; summary := "Sprint Planning (moved)"; ev_start := T;
     ev_end := T + minutes 45; calendarName := "Work" |}.

(** A calendar refresh fifteen seconds before the retry timer elapses. *)
Definition refreshBeforeRetry : list (Z * Input) :=
  [ (T + minutes 37 - 15000, Refresh (Normal [event]));
    (T + minutes 37, Timeout 0%nat) ].


(** A machine whose calendar database is locked and cannot be copied. *)
Definition lockedCalendar : Host :=
  {| homedir := "/Users/me";
     pathExists := fun p => String.eqb p "/Users/me/Library/Calendars/Calendar.sqlitedb";
     execSync := fun _ => Throw "database is locked";
     parseJson := fun _ => Throw "SyntaxError";
     localMidnight := fun now => now - now mod 86400000 |}.
End Sample.

(** ** The notes provider: [src/granola.ts] *)

(** A [Response] of [fetch]: the status, and what [response.json()]
    makes of the body. *)
Record Response (B : Type) := {
  status : Z;
  json : Completion B;
}.
Arguments status {B} r.
Arguments json {B} r.

(** [response.ok] *)
Definition ok {B : Type} (r : Response B) : bool :=
  (200 <=? status r) && (status r <=? 299).

(** The body of [/v2/get-documents]: [{ docs }], where [docs] may be
    missing. *)
Record DocumentsBody := { docs : option (list GranolaDocument) }.

(** [fetchDocuments], resumed with the outcome of [granolaFetch]. *)
Definition fetchDocuments (fetched : Completion (Response DocumentsBody))
  : Completion (list GranolaDocument) :=
  match fetched with
  | Throw e => Throw e
  | Normal response =>
      if negb (ok response) then Throw "Granola API error"
      else
        match json response with
        | Throw e => Throw e
        | Normal data => Normal (default [] (docs data))
        end
  end.

Inductive UtteranceSource := microphone | system.

(** [GranolaTranscriptUtterance] of [src/types.ts]; the timestamps are
    kept as the strings they are. *)
Record GranolaTranscriptUtterance := {
  source : UtteranceSource;
  text : string;
  start_timestamp : string;
  end_timestamp : string;
  confidence : Z;
}.

(** The body of [/v1/get-document-transcript]: an array of utterances, or
    some other JSON value. *)
Inductive TranscriptBody :=
| UtteranceArray (utterances : list GranolaTranscriptUtterance)
| NotAnArray.

(** [fetchTranscript], resumed with the outcome of [granolaFetch]. *)
Definition fetchTranscript (fetched : Completion (Response TranscriptBody))
  : Completion (list GranolaTranscriptUtterance) :=
  match fetched with
  | Throw e => Throw e
  | Normal response =>
      if status response =? 404 then Normal []
      else if negb (ok response) then Normal []
      else
        match json response with
        | Throw e => Throw e
        | Normal (UtteranceArray data) => Normal data
        | Normal NotAnArray => Normal []
        end
  end.

Definition LF : string := String "010"%char EmptyString.

(** [parts.join(sep)] *)
Fixpoint joinWith (sep : string) (parts : list string) : string :=
  match parts with
  | [] => EmptyString
  | [p] => p
  | p :: rest => (p ++ sep ++ joinWith sep rest)%string
  end.

(** [formatTranscript].  [timeOf] stands for
    [new Date(ts).toLocaleTimeString("en-US", ...)], which depends on the
    time zone of the machine. *)
Definition formatUtterance (timeOf : string -> string)
    (u : GranolaTranscriptUtterance) : string :=
  let time := timeOf (start_timestamp u) in
  let who := match source u with microphone => "You" | system => "Other" end in
  ("[" ++ time ++ "] " ++ who ++ ": " ++ text u)%string.

Definition formatTranscript (timeOf : string -> string)
    (utterances : list GranolaTranscriptUtterance) : string :=
  joinWith LF (map (formatUtterance timeOf) utterances).

(** [granola.fetchMeeting(doc)], resumed with the outcome of the
    [granolaFetch] of its transcript: the promise the scheduler awaits. *)
Definition fetchMeetingFrom (timeOf : string -> string) (doc : GranolaDocument)
    (fetched : Completion (Response TranscriptBody)) : Completion MeetingData :=
  match fetchTranscript fetched with
  | Throw e => Throw e
  | Normal utterances => Normal (fetchMeeting doc (formatTranscript timeOf utterances))
  end.

(** The same outcome as the scheduler model takes it: the formatted
    transcript. *)
Definition transcriptOutcome (timeOf : string -> string)
    (fetched : Completion (Response TranscriptBody)) : Outcome :=
  Transcript
    match fetchTranscript fetched with
    | Throw e => Throw e
    | Normal utterances => Normal (formatTranscript timeOf utterances)
    end.

(** *** Access tokens *)

Record TokenState := {
  accessToken : string;
  refreshToken : string;
  expiresAt : Z;
}.

(** What [readLocalTokens] returns. *)
Record LocalTokens := {
  local_accessToken : string;
  local_refreshToken : string;
  local_clientId : string;
}.

(** What [refreshAccessToken] returns. *)
Record RefreshedTokens := {
  new_accessToken : string;
  new_refreshToken : string;
  expiresIn : Z;
}.

(** The two variables the client closes over.  [clientId] is not
    assigned before the first read of the local credentials. *)
Record Client := {
  tokenState : option TokenState;
  clientId : option string;
}.

(** What [ensureToken] meets: the clock when it starts and when its
    [await] has returned, the outcome of the refresh request for the
    refresh token and client id it is called with, and of reading the
    credentials from disk. *)
Record TokenWorld := {
  now0 : Z;
  now1 : Z;
  refreshAccessToken : string -> option string -> Completion RefreshedTokens;
  readLocalTokens : Completion LocalTokens;
}.

(** The fall-back of [ensureToken]: fresh tokens from disk. *)
Definition tokenFromDisk (w : TokenWorld) (now : Z) (c : Client)
  : Completion string * Client :=
  match readLocalTokens w with
  | Throw e => (Throw e, c)
  | Normal local =>
      (Normal (local_accessToken local),
       {| tokenState := Some {| accessToken := local_accessToken local;
                                refreshToken := local_refreshToken local;
                                expiresAt := now + 3600 * 1000 |};
          clientId := Some (local_clientId local) |})
  end.

Definition ensureToken (w : TokenWorld) (c : Client) : Completion string * Client :=
  match tokenState c with
  | Some ts =>
      if now0 w <? expiresAt ts - 60000 then (Normal (accessToken ts), c)
      else if negb (String.eqb (refreshToken ts) EmptyString) then
        match refreshAccessToken w (refreshToken ts) (clientId c) with
        | Normal refreshed =>
            (Normal (new_accessToken refreshed),
             {| tokenState := Some {| accessToken := new_accessToken refreshed;
                                      refreshToken := new_refreshToken refreshed;
                                      expiresAt := now1 w + expiresIn refreshed * 1000 |};
                clientId := clientId c |})
        | Throw _ => tokenFromDisk w (now1 w) c
        end
      else tokenFromDisk w (now0 w) c
  | None => tokenFromDisk w (now0 w) c
  end.

(** ** The pipeline: [src/pipeline.ts] and [src/jira.ts] *)

Inductive IssueType := Bug | Story | Task | Spike.

(** [EngineeringTicket] of [src/types.ts]. *)
Record EngineeringTicket := {
  ticket_summary : string;
  ticket_description : string;
  issueType : IssueType;
  ticket_priority : string;
  acceptanceCriteria : option (list string);
  ticket_assignee : option string;
}.

Record ActionItem := {
  description : string;
  assignee : option string;
  dueDate : option string;
  priority : string;
}.

(** [MeetingExtraction] of [src/types.ts]. *)
Record MeetingExtraction := {
  meetingSummary : string;
  keyDecisions : list string;
  actionItems : list ActionItem;
  engineeringTickets : list EngineeringTicket;
  followUps : list string;
}.

(** The body of a created issue, and [JiraTicketResult]. *)
Record IssueCreated := { issue_key : string; issue_id : string; issue_self : string }.

Record JiraTicketResult := {
  key : string;
  jira_id : string;
  self : string;
  jira_summary : string;
}.

Record PipelineResult := {
  meetingId : string;
  meetingTitle : string;
  extraction : MeetingExtraction;
  jiraTickets : list JiraTicketResult;
  slackMessageTs : string;
}.

(** The issue type and labels that [createJiraTicket] sends: a spike is
    filed as a task with the label "spike". *)
Definition issueTypeName (t : IssueType) : string :=
  match t with
  | Bug => "Bug" | Story => "Story" | Task => "Task" | Spike => "Task"
  end.

Definition issueLabels (t : IssueType) : option (list string) :=
  match t with Spike => Some ["spike"%string] | _ => None end.

(** The services behind the pipeline: the extraction
    ([extractMeetingData]), the answer of JIRA to the request for one
    ticket ([jiraFetch] in [createJiraTicket]) and the Slack post
    ([postSlackSummary]). *)
Record Services := {
  extractMeetingData : MeetingData -> Completion MeetingExtraction;
  jiraFetch : EngineeringTicket -> Completion (Response IssueCreated);
  postSlackSummary :
    MeetingData -> MeetingExtraction -> list JiraTicketResult -> Completion string;
}.

(** The calls made to the services, in the order they are made. *)
Inductive ServiceCall :=
| CallExtract (meeting : MeetingData)
| CallJira (ticket : EngineeringTicket)
| CallSlack (meeting : MeetingData) (tickets : list JiraTicketResult).

Definition createJiraTicket (sv : Services) (ticket : EngineeringTicket)
  : Completion JiraTicketResult :=
  match jiraFetch sv ticket with
  | Throw e => Throw e
  | Normal response =>
      if negb (ok response) then Throw "JIRA API error"
      else
        match json response with
        | Throw e => Throw e
        | Normal data =>
            Normal {| key := issue_key data; jira_id := issue_id data;
                      self := issue_self data;
                      jira_summary := ticket_summary ticket |}
        end
  end.

(** The result for a ticket, if JIRA created it. *)
Definition created (sv : Services) (ticket : EngineeringTicket)
  : option JiraTicketResult :=
  match createJiraTicket sv ticket with
  | Normal result => Some result
  | Throw _ => None
  end.

(** [createJiraTickets]: the loop with its [try]/[catch], as a fold over
    the tickets; [results] is the array it pushes to. *)
Definition createJiraTickets (sv : Services) (tickets : list EngineeringTicket)
  : list JiraTicketResult * list ServiceCall :=
  fold_left
    (fun acc ticket =>
       let '(results, calls) := acc in
       match createJiraTicket sv ticket with
       | Normal result => (results ++ [result], calls ++ [CallJira ticket])
       | Throw _ => (results, calls ++ [CallJira ticket])
       end)
    tickets ([], []).

Definition processMeeting (sv : Services) (meeting : MeetingData)
  : Completion PipelineResult * list ServiceCall :=
  match extractMeetingData sv meeting with
  | Throw e => (Throw e, [CallExtract meeting])
  | Normal extraction =>
      let '(jiraTickets, jiraCalls) :=
        if (0 <? length (engineeringTickets extraction))%nat
        then createJiraTickets sv (engineeringTickets extraction)
        else ([], []) in
      let calls :=
        [CallExtract meeting] ++ jiraCalls ++ [CallSlack meeting jiraTickets] in
      match postSlackSummary sv meeting extraction jiraTickets with
      | Throw e => (Throw e, calls)
      | Normal slackMessageTs =>
          (Normal {| meetingId := md_id meeting;
                     meetingTitle := md_title meeting;
                     extraction := extraction;
                     jiraTickets := jiraTickets;
                     slackMessageTs := slackMessageTs |},
           calls)
      end
  end.


(** ** The command line: [src/cli.ts] *)

(** What a run of the command line meets: whether the environment
    passes [loadConfig], the answers of the notes provider to
    [fetchDocuments(limit)] and to the transcript request for a
    document, the services of the pipeline, and the clock. *)
Record CliWorld := {
  configValid : bool;
  documentsResponse : Z -> Completion (Response DocumentsBody);
  transcriptResponse : string -> Completion (Response TranscriptBody);
  timeOf : string -> string;
  services : Services;
  cli_now : Z;
}.

(** What a run leaves behind: the exit code, the state file, and the
    meetings handed to [processMeeting]. *)
Record CliRun := {
  exitCode : Z;
  stateAfter : StateFile;
  pipelineRun : list MeetingData;
}.

Definition finished (code : Z) (f : StateFile) (ran : list MeetingData) : CliRun :=
  {| exitCode := code; stateAfter := f; pipelineRun := ran |}.

(** [await processMeeting(config, meeting); markProcessed(meeting.id)].
    A throw ends [main], whose [catch] exits with 1. *)
Definition processAndMark (w : CliWorld) (meeting : MeetingData) (f : StateFile)
  : CliRun :=
  match fst (processMeeting (services w) meeting) with
  | Throw _ => finished 1 f [meeting]
  | Normal _ => finished 0 (markProcessed (cli_now w) (md_id meeting) f) [meeting]
  end.

(** The same, behind the check [isProcessed(meeting.id)]. *)
Definition processUnlessDone (w : CliWorld) (meeting : MeetingData) (f : StateFile)
  : CliRun :=
  if isProcessed f (md_id meeting) then finished 0 f []
  else processAndMark w meeting f.

Definition cliFetchMeeting (w : CliWorld) (doc : GranolaDocument)
  : Completion MeetingData :=
  fetchMeetingFrom (timeOf w) doc (transcriptResponse w (doc_id doc)).

(** [process <title words>]: the first document whose lower-cased title
    contains the lower-cased search term; the store is not asked. *)
Definition processByTitle (w : CliWorld) (args : list string) (f : StateFile)
  : CliRun :=
  let searchTerm := Js.toLowerCase (joinWith " " args) in
  if String.eqb searchTerm EmptyString then finished 1 f []
  else
    match fetchDocuments (documentsResponse w 100) with
    | Throw _ => finished 1 f []
    | Normal found =>
        match List.find
                (fun d => Js.includes (Js.toLowerCase (title d)) searchTerm) found with
        | None => finished 1 f []
        | Some doc =>
            match cliFetchMeeting w doc with
            | Throw _ => finished 1 f []
            | Normal meeting => processAndMark w meeting f
            end
        end
    end.

(** [main] of the command line, after [loadDotenv]; [argv] is
    [process.argv.slice(2)]. *)
Definition main (w : CliWorld) (argv : list string) (f : StateFile) : CliRun :=
  if negb (configValid w) then finished 1 f []
  else
    match argv with
    | [] => finished 0 f []
    | command :: args =>
        if String.eqb command EmptyString || String.eqb command "--help"
           || String.eqb command "-h"
        then finished 0 f []
        else if String.eqb command "reset" then finished 0 resetState []
        else if String.eqb command "list" then
          match fetchDocuments (documentsResponse w 20) with
          | Throw _ => finished 1 f []
          | Normal _ => finished 0 f []
          end
        else if String.eqb command "latest" then
          match fetchDocuments (documentsResponse w 1) with
          | Throw _ => finished 1 f []
          | Normal [] => finished 0 f []
          | Normal (doc :: _) =>
              match cliFetchMeeting w doc with
              | Throw _ => finished 1 f []
              | Normal meeting => processUnlessDone w meeting f
              end
          end
        else if String.eqb command "process" then
          match args with
          | flag :: wanted :: _ =>
              if String.eqb flag "--id" && negb (String.eqb wanted EmptyString) then
                match fetchDocuments (documentsResponse w 100) with
                | Throw _ => finished 1 f []
                | Normal found =>
                    match List.find (fun d => String.eqb (doc_id d) wanted) found with
                    | None => finished 1 f []
                    | Some doc =>
                        match cliFetchMeeting w doc with
                        | Throw _ => finished 1 f []
                        | Normal meeting => processUnlessDone w meeting f
                        end
                    end
                end
              else processByTitle w args f
          | _ => processByTitle w args f
          end
        else finished 1 f []
    end.


(** What a run of the command line, started with [argv] over the state
    file [f], may have done: it exits with 0 or 1; without a pipeline
    run the store is as it was or was reset by [reset]; with one, the
    store has the meeting marked if the pipeline succeeded and is as it
    was if it failed; the pipeline does not run twice. *)
Definition cliSound (w : CliWorld) (argv : list string) (f : StateFile)
    (r : CliRun) : Prop :=
  (exitCode r = 0 \/ exitCode r = 1) /\
  match pipelineRun r with
  | [] => stateAfter r = f \/
          (head argv = Some "reset"%string /\ r = finished 0 resetState [])
  | [m] =>
      (exitCode r = 0 /\
       stateAfter r = markProcessed (cli_now w) (md_id m) f /\
       isProcessed (stateAfter r) (md_id m) = true /\
       completes (fst (processMeeting (services w) m)) = true) \/
      (exitCode r = 1 /\ stateAfter r = f /\
       completes (fst (processMeeting (services w) m)) = false)
  | _ => False
  end.

(** ** More concrete data *)

Module Fixture.
(** A machine whose calendar has no event today: sqlite3 prints a blank
    line. *)
Definition emptyCalendar : Host :=
  {| homedir := "/Users/me";
     pathExists := fun p =>
       String.eqb p "/Users/me/Library/Calendars/Calendar.sqlitedb";
     execSync := fun _ => Normal "  ";
     parseJson := fun _ => Throw "SyntaxError";
     localMidnight := fun now => now - now mod 86400000 |}.

Definition utterance : GranolaTranscriptUtterance :=
  {| source := microphone; text := "hi";
     start_timestamp := "2023-11-14T22:20:00Z";
     end_timestamp := "2023-11-14T22:20:02Z"; confidence := 1 |}.

Definition wallClock (ts : string) : string := "10:20 PM".

(** The transcript endpoint answers 500. *)
Definition serverError : Response TranscriptBody :=
  {| status := 500; json := Throw "SyntaxError" |}.

Definition ticket (name : string) (kind : IssueType) : EngineeringTicket :=
  {| ticket_summary := name; ticket_description := "details";
     issueType := kind; ticket_priority := "Medium";
     acceptanceCriteria := None; ticket_assignee := None |}.

Definition found : MeetingExtraction :=
  {| meetingSummary := "Planned the sprint"; keyDecisions := [];
     actionItems := [];
     engineeringTickets := [ticket "Fix login" Bug; ticket "Try cache" Spike];
     followUps := [] |}.

(** Extraction and Slack work; JIRA refuses every request. *)
Definition jiraDown : Services :=
  {| extractMeetingData := fun _ => Normal found;
     jiraFetch := fun _ => Normal {| status := 503; json := Throw "SyntaxError" |};
     postSlackSummary := fun _ _ _ => Normal "1700002200.000100"%string |}.

(** Everything works; JIRA numbers the issues by their summary. *)
Definition allUp : Services :=
  {| extractMeetingData := fun _ => Normal found;
     jiraFetch := fun t =>
       Normal {| status := 201;
                 json := Normal {| issue_key := ("ENG-" ++ ticket_summary t)%string;
                                   issue_id := "10001";
                                   issue_self := "https://jira/rest/api/3/issue/10001" |} |};
     postSlackSummary := fun _ _ _ => Normal "1700002200.000100"%string |}.

Definition meeting : MeetingData := fetchMeeting Sample.after10 "[10:00] You: hi".

(** The notes provider lists the sample document, with one utterance. *)
Definition cliWorld : CliWorld :=
  {| configValid := true;
     documentsResponse := fun _ =>
       Normal {| status := 200;
                 json := Normal {| docs := Some [Sample.after10] |} |};
     transcriptResponse := fun _ =>
       Normal {| status := 200; json := Normal (UtteranceArray [utterance]) |};
     timeOf := wallClock;
     services := allUp;
     cli_now := Sample.T + Sample.minutes 60 |}.

(** A store in which the sample document is marked. *)
Definition doneStore : StateFile :=
  writeState {| processedIds := ["late"%string]; lastPollAt := 0 |}.

(** A client with a token good for another hour, and one whose token
    ends in thirty seconds. *)
Definition freshClient : Client :=
  {| tokenState := Some {| accessToken := "tok-1"; refreshToken := "ref-1";
                           expiresAt := Sample.T + Sample.minutes 60 |};
     clientId := Some "client-1"%string |}.

Definition staleClient : Client :=
  {| tokenState := Some {| accessToken := "tok-1"; refreshToken := "ref-1";
                           expiresAt := Sample.T + 30000 |};
     clientId := Some "client-1"%string |}.

(** The refresh request fails; the credentials on disk are readable. *)
Definition refreshDown : TokenWorld :=
  {| now0 := Sample.T; now1 := Sample.T + 500;
     refreshAccessToken := fun _ _ => Throw "WorkOS token refresh failed (400)";
     readLocalTokens :=
       Normal {| local_accessToken := "tok-disk"; local_refreshToken := "ref-disk";
                 local_clientId := "client-1" |} |}.
End Fixture.

(** * Properties *)

(** ** Strings *)

Lemma append_cons (c : ascii) (s t : string) :
  (String c s ++ t = String c (s ++ t))%string.
Proof. reflexivity. Qed.

Lemma prefix_app (sub s : string) :
  String.prefix sub s = true <-> exists post, s = (sub ++ post)%string.
Proof.
  revert s. induction sub as [|c sub IH]; intros s.
  - split; [intros _; by exists s | intros _; by destruct s].
  - destruct s as [|c' s]; simpl.
    + split; [done | intros [post H]; discriminate].
    + destruct (Ascii.ascii_dec c c') as [->|Hne].
      * rewrite IH. split; intros [post H]; exists post;
          rewrite append_cons in *; congruence.
      * split; [done | intros [post H]; rewrite append_cons in H; congruence].
Qed.

Lemma includes_nil (sub : string) :
  Js.includes EmptyString sub = String.prefix sub EmptyString || false.
Proof. reflexivity. Qed.

Lemma includes_cons (c : ascii) (s sub : string) :
  Js.includes (String c s) sub =
  String.prefix sub (String c s) || Js.includes s sub.
Proof. reflexivity. Qed.

(** [includes] is the substring test. *)
Lemma includes_spec (s sub : string) :
  Js.includes s sub = true <->
  exists pre post, s = (pre ++ sub ++ post)%string.
Proof.
  induction s as [|c s IH]; [rewrite includes_nil | rewrite includes_cons].
  - rewrite orb_false_r, prefix_app. split.
    + intros [post H]. by exists EmptyString, post.
    + intros [pre [post H]]. destruct pre as [|c pre].
      * by exists post.
      * rewrite append_cons in H. discriminate.
  - rewrite orb_true_iff, prefix_app, IH. split.
    + intros [[post H] | [pre [post H]]].
      * by exists EmptyString, post.
      * exists (String c pre), post. rewrite append_cons. by rewrite H.
    + intros [pre [post H]]. destruct pre as [|c' pre].
      * left. by exists post.
      * right. exists pre, post. rewrite append_cons in H. congruence.
Qed.

(** ** The stable sort *)

Section SortFacts.
Context {A : Type}.
Variable cmp : A -> A -> option Z.

Lemma insert_stable_perm (x : A) (l : list A) :
  Js.insert_stable cmp x l ≡ₚ x :: l.
Proof.
  induction l as [|y r IH]; simpl; [done|].
  destruct (Js.sorts_after cmp x y); [|done].
  rewrite IH. apply Permutation_swap.
Qed.

Lemma sort_perm (l : list A) : Js.sort cmp l ≡ₚ l.
Proof.
  induction l as [|x r IH]; simpl; [done|].
  by rewrite insert_stable_perm, IH.
Qed.

Lemma elem_of_sort (x : A) (l : list A) : x ∈ Js.sort cmp l <-> x ∈ l.
Proof. by rewrite sort_perm. Qed.

Lemma head_insert_stable (x : A) (l : list A) :
  head (Js.insert_stable cmp x l) =
  match head l with
  | Some y => if Js.sorts_after cmp x y then Some y else Some x
  | None => Some x
  end.
Proof. destruct l as [|y r]; simpl; [done|]. by destruct (Js.sorts_after cmp x y). Qed.

(** With keys: the comparator says "after" exactly when the key is
    larger. *)
Variable key : A -> Z.
Local Abbreviation firstLeast := (firstLeast key).

Lemma firstLeast_elem (l : list A) (m : A) : firstLeast l = Some m -> m ∈ l.
Proof.
  revert m. induction l as [|x r IH]; intros m; simpl; [done|].
  destruct (firstLeast r) as [m'|].
  - destruct (key m' <? key x); intros [= <-]; [right; by apply IH | left].
  - intros [= <-]. left.
Qed.

Lemma head_sort_firstLeast (l : list A) :
  (forall x y, x ∈ l -> y ∈ l -> Js.sorts_after cmp x y = (key y <? key x)) ->
  head (Js.sort cmp l) = firstLeast l.
Proof.
  induction l as [|x r IH]; intros Hcmp; simpl; [done|].
  rewrite head_insert_stable, IH.
  - destruct (firstLeast r) as [m|] eqn:Hm; [|done].
    rewrite Hcmp; [done | left | right; by apply firstLeast_elem].
  - intros a b Ha Hb. apply Hcmp; by right.
Qed.

(** Everything listed before the chosen element has a strictly larger
    key, everything listed after it a key at least as large. *)
Lemma firstLeast_split (l : list A) (m : A) :
  firstLeast l = Some m ->
  exists pre post, l = pre ++ m :: post /\
    Forall (fun x => key m < key x) pre /\
    Forall (fun x => key m <= key x) post.
Proof.
  revert m. induction l as [|x r IH]; intros m; simpl; [done|].
  destruct (firstLeast r) as [m'|] eqn:Hr.
  - destruct (IH m' eq_refl) as (pre & post & -> & Hpre & Hpost).
    destruct (key m' <? key x) eqn:Hlt; intros [= <-].
    + exists (x :: pre), post. split; [done|]. split; [|done].
      constructor; [lia | done].
    + exists [], (pre ++ m' :: post). split; [done|]. split; [constructor|].
      apply Forall_app. split.
      * eapply Forall_impl; [exact Hpre|]. simpl. lia.
      * constructor; [lia|]. eapply Forall_impl; [exact Hpost|]. simpl. lia.
  - intros [= <-]. destruct r as [|y r].
    + exists [], []. repeat split; constructor.
    + simpl in Hr. by destruct (firstLeast r) as [?|]; try destruct (_ <? _).
Qed.

Lemma firstLeast_nonempty (l : list A) : l <> [] -> is_Some (firstLeast l).
Proof.
  destruct l as [|x r]; [done|]. intros _. simpl.
  destruct (firstLeast r) as [m|]; [destruct (key m <? key x)|]; eauto.
Qed.
End SortFacts.

(** ** The matcher *)

Lemma timeDiff_Some (start : Z) (d : GranolaDocument) (t : Z) :
  created_at d = Some t -> timeDiff start d = Some (Z.abs (t - start)).
Proof. unfold timeDiff. by intros ->. Qed.

Lemma num_lt_timeDiff (start bound : Z) (d : GranolaDocument) :
  Js.num_lt (timeDiff start d) bound = true <->
  exists t, created_at d = Some t /\ Z.abs (t - start) < bound.
Proof.
  unfold timeDiff. destruct (created_at d) as [t|]; simpl.
  - rewrite Z.ltb_lt. split; [intros H; by exists t | by intros [t' [[= <-] H]]].
  - split; [done | by intros [t [? _]]].
Qed.


Lemma isTitleMatch_spec (ev : CalendarEvent) (d : GranolaDocument) :
  isTitleMatch ev d = true <->
  (exists t, created_at d = Some t /\ Z.abs (t - ev_start ev) < TWO_HOURS) /\
  titleRelated (eventTitle ev) d = true.
Proof. unfold isTitleMatch. cbv zeta. by rewrite andb_true_iff, num_lt_timeDiff. Qed.

Lemma isTimeMatch_spec (ev : CalendarEvent) (d : GranolaDocument) :
  isTimeMatch ev d = true <->
  exists t, created_at d = Some t /\ Z.abs (t - ev_start ev) < THIRTY_MINUTES.
Proof. unfold isTimeMatch. apply num_lt_timeDiff. Qed.

Lemma elem_of_titleMatches (docs : list GranolaDocument) (ev : CalendarEvent)
    (d : GranolaDocument) :
  d ∈ titleMatches docs ev <-> d ∈ docs /\ isTitleMatch ev d = true.
Proof. unfold titleMatches. by rewrite !list_elem_of_In, filter_In. Qed.

Lemma elem_of_timeMatches (docs : list GranolaDocument) (ev : CalendarEvent)
    (d : GranolaDocument) :
  d ∈ timeMatches docs ev <-> d ∈ docs /\ isTimeMatch ev d = true.
Proof. unfold timeMatches. by rewrite elem_of_sort, !list_elem_of_In, filter_In. Qed.

(** On documents with a creation time the comparator orders by
    [distance]. *)
Lemma sorts_after_distance (ev : CalendarEvent) (a b : GranolaDocument) :
  is_Some (created_at a) -> is_Some (created_at b) ->
  Js.sorts_after (byTimeDiff ev) a b = (distance ev b <? distance ev a).
Proof.
  intros [ta Ha] [tb Hb].
  unfold Js.sorts_after, byTimeDiff, distance.
  rewrite (timeDiff_Some _ _ _ Ha), (timeDiff_Some _ _ _ Hb). simpl.
  apply eq_true_iff_eq. rewrite !Z.ltb_lt. lia.
Qed.

Lemma isTitleMatch_created (ev : CalendarEvent) (d : GranolaDocument) :
  isTitleMatch ev d = true -> is_Some (created_at d).
Proof. rewrite isTitleMatch_spec. intros [[t [H _]] _]. eauto. Qed.

(** The title step returns the first listed of the closest survivors. *)
Lemma title_step_firstLeast (docs : list GranolaDocument) (ev : CalendarEvent) :
  head (Js.sort (byTimeDiff ev) (titleMatches docs ev)) =
  firstLeast (distance ev) (titleMatches docs ev).
Proof.
  apply head_sort_firstLeast. intros a b Ha Hb.
  apply elem_of_titleMatches in Ha as [_ Ha], Hb as [_ Hb].
  apply sorts_after_distance; by eapply isTitleMatch_created.
Qed.

Lemma findMatchingDoc_title_step (docs : list GranolaDocument) (ev : CalendarEvent) :
  titleMatches docs ev <> [] ->
  findMatchingDoc docs ev = firstLeast (distance ev) (titleMatches docs ev).
Proof.
  intros Hne. unfold findMatchingDoc. cbv zeta.
  destruct (titleMatches docs ev) as [|d r] eqn:Htm; [done|].
  change (0 <? length (d :: r))%nat with true. cbv iota.
  by rewrite <- Htm, title_step_firstLeast.
Qed.

Lemma findMatchingDoc_fallback (docs : list GranolaDocument) (ev : CalendarEvent) :
  titleMatches docs ev = [] ->
  findMatchingDoc docs ev = head (timeMatches docs ev).
Proof. intros Hnil. unfold findMatchingDoc. cbv zeta. by rewrite Hnil. Qed.

Lemma distance_created (ev : CalendarEvent) (d : GranolaDocument) (t : Z) :
  created_at d = Some t -> distance ev d = Z.abs (t - ev_start ev).
Proof. intros H. unfold distance. by rewrite (timeDiff_Some _ _ _ H). Qed.

Example title_priority_example :
  findMatchingDoc [Sample.planning; Sample.random] Sample.event
  = Some Sample.planning.
Proof. reflexivity. Qed.

Example fallback_example :
  findMatchingDoc
    [Sample.mkDoc "a" "Retro" (Sample.T + Sample.minutes 40) EmptyString;
     Sample.mkDoc "b" "1:1" (Sample.T + Sample.minutes 20) EmptyString]
    Sample.event
  = Some (Sample.mkDoc "b" "1:1" (Sample.T + Sample.minutes 20) EmptyString).
Proof. reflexivity. Qed.

Example no_match_example :
  findMatchingDoc
    [Sample.mkDoc "a" "Sprint Planning" (Sample.T + Sample.minutes 121) EmptyString;
     Sample.mkDoc "b" "1:1" (Sample.T - Sample.minutes 31) EmptyString]
    Sample.event
  = None.
Proof. reflexivity. Qed.

Example trim_example :
  Js.trim (Js.toLowerCase "  Sprint Planning ") = "sprint planning"%string.
Proof. reflexivity. Qed.



(** C4, as the code has it.  In the title+time step the candidate
    returned is a survivor at minimum absolute distance from the start of
    the event; of several survivors at that distance it is the one listed
    first among the candidates (the order of creation plays no part). *)
Theorem closest_title_match_first_listed (docs : list GranolaDocument)
    (ev : CalendarEvent) :
  titleMatches docs ev <> [] ->
  exists d pre post,
    findMatchingDoc docs ev = Some d /\
    titleMatches docs ev = pre ++ d :: post /\
    Forall (fun x => distance ev d < distance ev x) pre /\
    Forall (fun x => distance ev d <= distance ev x) post /\
    Forall (fun x => exists t, created_at x = Some t /\
                               distance ev x = Z.abs (t - ev_start ev))
           (titleMatches docs ev).
Proof.
  intros Hne. rewrite (findMatchingDoc_title_step _ _ Hne).
  destruct (firstLeast_nonempty (distance ev) _ Hne) as [d Hd].
  destruct (firstLeast_split _ _ _ Hd) as (pre & post & Hsplit & Hpre & Hpost).
  exists d, pre, post. repeat split; try done.
  apply Forall_forall. intros x Hx.
  apply elem_of_titleMatches in Hx as [_ Hx].
  destruct (isTitleMatch_created _ _ Hx) as [t Ht].
  exists t. split; [done | by apply distance_created].
Qed.

Lemma closest_title_match_first_listed_witness :
  exists d pre post,
    findMatchingDoc [Sample.random; Sample.after10; Sample.before10] Sample.event
      = Some d /\
    titleMatches [Sample.random; Sample.after10; Sample.before10] Sample.event
      = pre ++ d :: post /\
    Forall (fun x => distance Sample.event d < distance Sample.event x) pre /\
    Forall (fun x => distance Sample.event d <= distance Sample.event x) post.
Proof.
  destruct (closest_title_match_first_listed
              [Sample.random; Sample.after10; Sample.before10] Sample.event)
    as (d & pre & post & H1 & H2 & H3 & H4 & _).
  - vm_compute. discriminate.
  - exists d, pre, post. auto.
Defined.

(** C4, as stated, fails: two same-titled documents ten minutes after and
    ten minutes before the start are at the same distance; the matcher
    returns the one listed first, here the one created later. *)
Lemma tie_returns_first_listed_not_earliest :
  findMatchingDoc [Sample.after10; Sample.before10] Sample.event
    = Some Sample.after10 /\
  titleMatches [Sample.after10; Sample.before10] Sample.event
    = [Sample.after10; Sample.before10] /\
  distance Sample.event Sample.after10 = distance Sample.event Sample.before10 /\
  created_at Sample.before10 = Some (Sample.T - 600000) /\
  created_at Sample.after10 = Some (Sample.T + 600000) /\
  ~ tiesGoToEarliestCreated.
Proof.
  repeat split; try reflexivity.
  intros Hclaim.
  assert (H : Sample.T + 600000 <= Sample.T - 600000).
  { apply (Hclaim [Sample.after10; Sample.before10] Sample.event
             Sample.after10 Sample.before10); try reflexivity.
    - change (Sample.after10 ∈ [Sample.after10; Sample.before10]). left.
    - change (Sample.before10 ∈ [Sample.after10; Sample.before10]). right; left. }
  unfold Sample.T in H. lia.
Qed.

(** C10. Both windows are strict.  For a candidate created at [t]: it
    survives the title+time filter only if [|t - start|] is strictly
    below two hours, and the time-only filter exactly when [|t - start|]
    is strictly below thirty minutes; at exactly two hours, and at exactly
    thirty minutes, it is left out. *)
Theorem windows_are_strict (docs : list GranolaDocument) (ev : CalendarEvent)
    (d : GranolaDocument) (t : Z) :
  created_at d = Some t ->
  (Z.abs (t - ev_start ev) = TWO_HOURS -> d ∉ titleMatches docs ev) /\
  (Z.abs (t - ev_start ev) = THIRTY_MINUTES -> d ∉ timeMatches docs ev) /\
  (d ∈ titleMatches docs ev <->
   d ∈ docs /\ Z.abs (t - ev_start ev) < TWO_HOURS /\
   titleRelated (eventTitle ev) d = true) /\
  (d ∈ timeMatches docs ev <->
   d ∈ docs /\ Z.abs (t - ev_start ev) < THIRTY_MINUTES).
Proof.
  intros Ht.
  assert (Htitle : d ∈ titleMatches docs ev <->
            d ∈ docs /\ Z.abs (t - ev_start ev) < TWO_HOURS /\
            titleRelated (eventTitle ev) d = true).
  { rewrite elem_of_titleMatches, isTitleMatch_spec. split.
    - intros (Hin & (t' & Ht' & Hlt) & Hrel). rewrite Ht in Ht'.
      injection Ht' as <-. done.
    - intros (Hin & Hlt & Hrel). eauto 6. }
  assert (Htime : d ∈ timeMatches docs ev <->
            d ∈ docs /\ Z.abs (t - ev_start ev) < THIRTY_MINUTES).
  { rewrite elem_of_timeMatches, isTimeMatch_spec. split.
    - intros (Hin & t' & Ht' & Hlt). rewrite Ht in Ht'.
      injection Ht' as <-. done.
    - intros (Hin & Hlt). eauto. }
  split; [|split; [|split; [exact Htitle | exact Htime]]].
  - intros Heq Hin. apply Htitle in Hin. lia.
  - intros Heq Hin. apply Htime in Hin. lia.
Qed.

Lemma windows_are_strict_witness :
  (Sample.at2h ∉ titleMatches [Sample.at2h; Sample.at30m] Sample.event) /\
  (Sample.at30m ∉ timeMatches [Sample.at2h; Sample.at30m] Sample.event) /\
  findMatchingDoc [Sample.at2h; Sample.at30m] Sample.event = None.
Proof.
  split; [|split].
  - destruct (windows_are_strict [Sample.at2h; Sample.at30m] Sample.event
                Sample.at2h (Sample.T + Sample.minutes 120) eq_refl) as (H & _).
    apply H. reflexivity.
  - destruct (windows_are_strict [Sample.at2h; Sample.at30m] Sample.event
                Sample.at30m (Sample.T + Sample.minutes 30) eq_refl) as (_ & H & _).
    apply H. reflexivity.
  - reflexivity.
Defined.

(** ** The dedup store *)

Lemma includesId_true (ids : list string) (id : string) :
  includesId ids id = true <-> id ∈ ids.
Proof. unfold includesId. apply bool_decide_eq_true. Qed.

Lemma includesId_false (ids : list string) (id : string) :
  includesId ids id = false <-> id ∉ ids.
Proof. unfold includesId. apply bool_decide_eq_false. Qed.

Lemma readState_writeState (st : State) : readState (writeState st) = st.
Proof. reflexivity. Qed.

Lemma length_slice_last (n : nat) (ids : list string) :
  (length (slice_last n ids) <= n)%nat.
Proof. unfold slice_last. rewrite length_drop. lia. Qed.

(** [slice(-n)] drops a prefix: the entries pushed first. *)
Lemma slice_last_suffix (n : nat) (ids : list string) :
  ids = take (length ids - n) ids ++ slice_last n ids.
Proof. unfold slice_last. by rewrite take_drop. Qed.

Lemma last_in_slice_last (n : nat) (ids : list string) (id : string) :
  (0 < n)%nat -> id ∈ slice_last n (ids ++ [id]).
Proof.
  intros Hn. unfold slice_last. rewrite length_app. simpl.
  rewrite drop_app_le by lia. apply elem_of_app. right. left.
Qed.

(** The ids stored after one call. *)
Lemma markProcessed_ids (now : Z) (id : string) (f : StateFile) :
  processedIds (readState (markProcessed now id f)) =
  let ids := processedIds (readState f) in
  if includesId ids id then ids
  else if (MAX_IDS <? length (ids ++ [id]))%nat
       then slice_last MAX_IDS (ids ++ [id]) else ids ++ [id].
Proof.
  unfold markProcessed. cbv zeta.
  destruct (includesId (processedIds (readState f)) id); simpl; [done|].
  by destruct (MAX_IDS <? length (processedIds (readState f) ++ [id]))%nat.
Qed.

Lemma markProcessed_bound (now : Z) (id : string) (f : StateFile) :
  (length (processedIds (readState f)) <= MAX_IDS)%nat ->
  (length (processedIds (readState (markProcessed now id f))) <= MAX_IDS)%nat.
Proof.
  intros Hlen. rewrite markProcessed_ids. cbv zeta.
  destruct (includesId _ id); [done|].
  destruct (MAX_IDS <? _)%nat eqn:Hover.
  - apply length_slice_last.
  - apply Nat.ltb_ge in Hover. done.
Qed.

Lemma markAll_bound (calls : list (Z * string)) (f : StateFile) :
  (length (processedIds (readState f)) <= MAX_IDS)%nat ->
  (length (processedIds (readState (markAll calls f))) <= MAX_IDS)%nat.
Proof.
  revert f. induction calls as [|[now id] calls IH]; intros f Hlen; [done|].
  apply IH. by apply markProcessed_bound.
Qed.

Corollary store_from_scratch_bounded (calls : list (Z * string)) (f : StateFile) :
  f = Absent \/ f = Unreadable \/ f = Readable Garbage \/ f = resetState ->
  (length (processedIds (readState (markAll calls f))) <= MAX_IDS)%nat.
Proof.
  intros Hf. apply markAll_bound.
  destruct Hf as [-> | [-> | [-> | ->]]]; simpl; unfold MAX_IDS; lia.
Qed.

Lemma markProcessed_present (now : Z) (id : string) (f : StateFile) :
  id ∈ processedIds (readState f) -> markProcessed now id f = f.
Proof.
  intros Hin. unfold markProcessed. cbv zeta.
  apply includesId_true in Hin. by rewrite Hin.
Qed.

Lemma markProcessed_marks (now : Z) (id : string) (f : StateFile) :
  isProcessed (markProcessed now id f) id = true.
Proof.
  unfold isProcessed. rewrite markProcessed_ids. cbv zeta.
  destruct (includesId (processedIds (readState f)) id) eqn:Hin; [done|].
  apply includesId_true.
  destruct (MAX_IDS <? _)%nat.
  - apply last_in_slice_last. unfold MAX_IDS. lia.
  - apply elem_of_app. right. left.
Qed.

(** C6. The store keeps at most 500 ids.  From a store of at most 500 ids
    (an absent, unreadable or reset one has none) every sequence of
    [markProcessed] calls leaves at most 500; marking a new id appends it
    and drops entries from the front of the list, the oldest, keeping the
    last 500; marking an id already present leaves the file as it is, so
    that marking twice is marking once. *)
Theorem store_bounded_oldest_first (f : StateFile) (calls : list (Z * string))
    (now now' : Z) (id : string) :
  (length (processedIds (readState f)) <= 500)%nat ->
  (length (processedIds (readState (markAll calls f))) <= 500)%nat /\
  (length (processedIds (readState (markProcessed now id f))) <= 500)%nat /\
  (id ∉ processedIds (readState f) ->
   exists evicted,
     processedIds (readState f) ++ [id] =
       evicted ++ processedIds (readState (markProcessed now id f)) /\
     length evicted = (length (processedIds (readState f)) + 1 - 500)%nat) /\
  (id ∈ processedIds (readState f) -> markProcessed now id f = f) /\
  markProcessed now' id (markProcessed now id f) = markProcessed now id f /\
  isProcessed (markProcessed now id f) id = true.
Proof.
  intros Hlen. change 500%nat with MAX_IDS in *.
  split; [by apply markAll_bound|].
  split; [by apply markProcessed_bound|].
  split; [|split; [apply markProcessed_present|split]].
  - intros Hnew. apply includesId_false in Hnew.
    rewrite markProcessed_ids. cbv zeta. rewrite Hnew.
    destruct (MAX_IDS <? _)%nat eqn:Hover.
    + exists (take (length (processedIds (readState f) ++ [id]) - MAX_IDS)
                   (processedIds (readState f) ++ [id])).
      split; [apply slice_last_suffix|].
      apply Nat.ltb_lt in Hover. rewrite length_take.
      rewrite length_app in *. simpl in *. lia.
    + exists []. split; [done|].
      apply Nat.ltb_ge in Hover. rewrite length_app in Hover. simpl in *. lia.
  - apply markProcessed_present. apply includesId_true.
    apply markProcessed_marks.
  - apply markProcessed_marks.
Qed.

Lemma store_bounded_oldest_first_witness :
  (length (processedIds (readState (markProcessed 7 "new" Sample.fullStore))) <= 500)%nat /\
  exists evicted,
    processedIds (readState Sample.fullStore) ++ ["new"%string] =
      evicted ++ processedIds (readState (markProcessed 7 "new" Sample.fullStore)) /\
    length evicted = 1%nat.
Proof.
  assert (Hlen : (length (processedIds (readState Sample.fullStore)) <= 500)%nat).
  { assert (H : length (processedIds (readState Sample.fullStore)) = 500%nat)
      by (vm_compute; reflexivity).
    rewrite H. apply le_n. }
  destruct (store_bounded_oldest_first Sample.fullStore [] 7 8 "new" Hlen)
    as (_ & Hbound & Hevict & _).
  split; [exact Hbound|].
  destruct Hevict as (evicted & Heq & Hn).
  - apply includesId_false. vm_compute. reflexivity.
  - exists evicted. split; [exact Heq|]. rewrite Hn. vm_compute. reflexivity.
Defined.

Example eviction_example :
  head (processedIds (readState Sample.fullStore)) = Some "0"%string /\
  head (processedIds (readState (markProcessed 7 "new" Sample.fullStore))) = Some "1"%string /\
  last (processedIds (readState (markProcessed 7 "new" Sample.fullStore))) = Some "new"%string.
Proof. vm_compute. auto. Qed.

(** ** The calendar source *)

Lemma fetch_with_database (h : Host) (now : Z) (dbPath : string) :
  getDbPath h = Normal dbPath ->
  fetchTodaysEvents h now =
  match queryDirect h dbPath (todaySql h now) with
  | Normal events => Normal events
  | Throw _ =>
      match queryCopy h dbPath (todaySql h now) with
      | Normal events => Normal events
      | Throw _ => Normal []
      end
  end.
Proof. intros Hdb. unfold fetchTodaysEvents. by rewrite Hdb. Qed.





(** ** The scheduler *)

(** The timer that [scheduleProcessing] sets for an event in state [s]. *)
Lemma scheduleProcessing_eq (config : Config) (ev : CalendarEvent) (s : Scheduler) :
  scheduleProcessing config ev s =
  if bool_decide (ev_id ev ∈ scheduledEventIds s) then (Normal tt, s)
  else if isProcessed (stateFile s) (ev_id ev) then (Normal tt, s)
  else
    (Normal tt,
     {| clock := clock s;
        scheduledEventIds := {[ ev_id ev ]} ∪ scheduledEventIds s;
        stateFile := stateFile s;
        timers := timers s ++
          [ {| due := clock s +
                      timerDelay (Z.max (ev_end ev + delayAfterMeetingMs config - clock s)
                                        FLOOR_DELAY);
               callback := OnMeetingEnded ev |} ];
        suspended := suspended s;
        pipelineCalls := pipelineCalls s |}).
Proof.
  unfold scheduleProcessing, bind, scheduled_has, isProcessedM, ret. simpl.
  destruct (bool_decide (ev_id ev ∈ scheduledEventIds s)); [done|].
  by destruct (isProcessed (stateFile s) (ev_id ev)).
Qed.

Lemma scheduleProcessing_completes (config : Config) (ev : CalendarEvent)
    (s : Scheduler) :
  fst (scheduleProcessing config ev s) = Normal tt.
Proof.
  rewrite scheduleProcessing_eq.
  destruct (bool_decide _); [done|]. by destruct (isProcessed _ _).
Qed.


(** C7. An event whose fire time (end plus configured delay) has passed
    when it is armed gets a timer due exactly 30 seconds later; that timer
    cannot elapse earlier than 30 seconds after arming. *)
Theorem late_arm_waits_for_floor (config : Config) (event : CalendarEvent)
    (s : Scheduler) :
  ev_id event ∉ scheduledEventIds s ->
  isProcessed (stateFile s) (ev_id event) = false ->
  ev_end event + delayAfterMeetingMs config <= clock s ->
  let armed := snd (scheduleProcessing config event s) in
  timers armed =
    timers s ++ [ {| due := clock s + 30000; callback := OnMeetingEnded event |} ] /\
  forall now r,
    step config now (Timeout (length (timers s))) armed = Some r ->
    clock s + 30000 <= now.
Proof.
  intros Hfree Hnew Hpast armed.
  assert (Harmed : timers armed =
    timers s ++ [ {| due := clock s + 30000; callback := OnMeetingEnded event |} ]).
  { unfold armed. rewrite scheduleProcessing_eq.
    rewrite (bool_decide_eq_false_2 _ Hfree), Hnew. simpl.
    replace (Z.max _ FLOOR_DELAY) with 30000 by (unfold FLOOR_DELAY; lia).
    reflexivity. }
  split; [exact Harmed|].
  intros now r. unfold step.
  destruct (now <? clock armed); [done|]. simpl.
  rewrite Harmed, list_lookup_middle by done. simpl.
  destruct (clock s + 30000 <=? now) eqn:Hdue; [|done].
  intros _. by apply Z.leb_le.
Qed.

Lemma late_arm_waits_for_floor_witness :
  timers (snd (scheduleProcessing Sample.config Sample.event
                 (startup (Sample.T + Sample.minutes 90) Absent))) =
  [ {| due := Sample.T + Sample.minutes 90 + 30000;
       callback := OnMeetingEnded Sample.event |} ].
Proof.
  destruct (late_arm_waits_for_floor Sample.config Sample.event
              (startup (Sample.T + Sample.minutes 90) Absent)) as [H _].
  - apply not_elem_of_empty.
  - reflexivity.
  - vm_compute. discriminate.
  - exact H.
Defined.

(** Apart from the floor, the wait is the time left until the fire
    time. *)
Example future_arm_example :
  timers (snd (scheduleProcessing Sample.config Sample.event
                 (startup Sample.T Absent))) =
  [ {| due := Sample.T + Sample.minutes 35;
       callback := OnMeetingEnded Sample.event |} ].
Proof. reflexivity. Qed.

(** C9. When the pipeline call of a fire throws, the callback ends
    normally: the [catch] block removes the event id from the tracked
    set, nothing is written to the store (neither the event id nor the
    document id is marked), no timer is set, and the event, if not
    processed before, can be armed again. *)
Theorem pipeline_failure_releases_event (config : Config) (now : Z) (k : nat)
    (event : CalendarEvent) (doc : GranolaDocument) (meeting : MeetingData)
    (err : string) (s : Scheduler) :
  suspended s !! k = Some (AwaitPipeline event doc meeting) ->
  clock s <= now ->
  exists s',
    step config now (Settle k (Pipeline (Throw err))) s = Some (Normal tt, s') /\
    scheduledEventIds s' = scheduledEventIds s ∖ {[ ev_id event ]} /\
    stateFile s' = stateFile s /\
    timers s' = timers s /\
    suspended s' = delete k (suspended s) /\
    pipelineCalls s' = pipelineCalls s /\
    (isProcessed (stateFile s) (ev_id event) = false ->
     exists t, timers (snd (scheduleProcessing config event s')) = timers s' ++ [t] /\
               callback t = OnMeetingEnded event).
Proof.
  intros Hk Hnow. unfold step.
  replace (now <? clock s) with false by (symmetry; apply Z.ltb_ge; lia).
  simpl. rewrite Hk. simpl.
  eexists. split; [reflexivity|]. simpl. repeat split.
  intros Hnew. rewrite scheduleProcessing_eq. simpl.
  rewrite bool_decide_eq_false_2
    by (rewrite elem_of_difference, elem_of_singleton; tauto).
  rewrite Hnew. simpl.
  eexists. split; reflexivity.
Qed.

(** The sample state is reached: refresh, timer, documents, transcript. *)
Example inPipeline_reached :
  run Sample.config
    [ (Sample.T, Refresh (Normal [Sample.event]));
      (Sample.T + Sample.minutes 35, Timeout 0%nat);
      (Sample.T + Sample.minutes 35, Settle 0%nat (Documents (Normal [Sample.after10])));
      (Sample.T + Sample.minutes 36, Settle 0%nat (Transcript (Normal "[10:00] You: hi"))) ]
    (startup Sample.T Absent)
  = Some Sample.inPipeline.
Proof. vm_compute. reflexivity. Qed.

Lemma pipeline_failure_releases_event_witness :
  exists s',
    step Sample.config (Sample.T + Sample.minutes 37)
      (Settle 0%nat (Pipeline (Throw "Slack: channel_not_found"))) Sample.inPipeline
      = Some (Normal tt, s') /\
    scheduledEventIds s' = scheduledEventIds Sample.inPipeline ∖ {[ "41"%string ]} /\
    stateFile s' = Absent.
Proof.
  destruct (pipeline_failure_releases_event Sample.config
              (Sample.T + Sample.minutes 37) 0%nat Sample.event Sample.after10
              (fetchMeeting Sample.after10 "[10:00] You: hi")
              "Slack: channel_not_found" Sample.inPipeline)
    as (s' & Hstep & Hids & Hfile & _).
  - reflexivity.
  - vm_compute. discriminate.
  - exists s'. repeat split; assumption.
Defined.

(** *** The continuations, case by case *)

Lemma afterDocuments_eq (e : CalendarEvent) (r : Completion (list GranolaDocument))
    (s : Scheduler) :
  afterDocuments e r s =
  (Normal tt,
   match r with
   | Throw _ => with_scheduled (scheduledEventIds s ∖ {[ ev_id e ]}) s
   | Normal docs =>
       match findMatchingDoc docs e with
       | None => with_scheduled (scheduledEventIds s ∖ {[ ev_id e ]}) s
       | Some d =>
           if isProcessed (stateFile s) (doc_id d)
           then with_stateFile (markProcessed (clock s) (ev_id e) (stateFile s)) s
           else with_suspended (suspended s ++ [AwaitMeeting e d]) s
       end
   end).
Proof.
  unfold afterDocuments, try_catch, bind, await, onFailure, scheduled_delete,
    isProcessedM, markProcessedM, suspend.
  destruct r as [docs|err]; [|done].
  destruct (findMatchingDoc docs e) as [d|]; [|done].
  by destruct (isProcessed (stateFile s) (doc_id d)).
Qed.

Lemma afterMeeting_eq (e : CalendarEvent) (d : GranolaDocument)
    (r : Completion string) (s : Scheduler) :
  afterMeeting e d r s =
  (Normal tt,
   match r with
   | Throw _ => with_scheduled (scheduledEventIds s ∖ {[ ev_id e ]}) s
   | Normal formatted =>
       if notReady (fetchMeeting d formatted)
       then
         {| clock := clock s;
            scheduledEventIds := scheduledEventIds s ∖ {[ ev_id e ]};
            stateFile := stateFile s;
            timers := timers s ++
              [ {| due := clock s + RETRY_DELAY; callback := OnRetry e |} ];
            suspended := suspended s;
            pipelineCalls := pipelineCalls s |}
       else
         {| clock := clock s;
            scheduledEventIds := scheduledEventIds s;
            stateFile := stateFile s;
            timers := timers s;
            suspended := suspended s ++ [AwaitPipeline e d (fetchMeeting d formatted)];
            pipelineCalls := pipelineCalls s ++ [(ev_id e, fetchMeeting d formatted)] |}
   end).
Proof.
  unfold afterMeeting, try_catch, bind, await, onFailure, scheduled_delete,
    setTimeout, callPipeline, suspend.
  destruct r as [formatted|err]; [|done].
  by destruct (notReady (fetchMeeting d formatted)).
Qed.

Lemma afterPipeline_eq (e : CalendarEvent) (d : GranolaDocument)
    (r : Completion unit) (s : Scheduler) :
  afterPipeline e d r s =
  (Normal tt,
   match r with
   | Throw _ => with_scheduled (scheduledEventIds s ∖ {[ ev_id e ]}) s
   | Normal _ =>
       with_stateFile
         (markProcessed (clock s) (doc_id d)
            (markProcessed (clock s) (ev_id e) (stateFile s))) s
   end).
Proof.
  unfold afterPipeline, try_catch, bind, await, onFailure, scheduled_delete,
    markProcessedM.
  by destruct r as [[]|err].
Qed.

Lemma runCallback_eq (config : Config) (cb : Callback) (s : Scheduler) :
  runCallback config cb s =
  match cb with
  | OnMeetingEnded e => (Normal tt, with_suspended (suspended s ++ [AwaitDocuments e]) s)
  | OnRetry e =>
      scheduleProcessing config (endedAt (clock s) e)
        (with_scheduled (scheduledEventIds s ∖ {[ ev_id e ]}) s)
  end.
Proof. by destruct cb. Qed.

Lemma forEach_scheduleProcessing_completes (config : Config)
    (events : list CalendarEvent) (s : Scheduler) :
  fst (forEach (scheduleProcessing config) events s) = Normal tt.
Proof.
  revert s. induction events as [|ev events IH]; intros s; [done|].
  simpl. unfold bind.
  pose proof (scheduleProcessing_completes config ev s) as Hc.
  destruct (scheduleProcessing config ev s) as [c s1]. simpl in Hc. subst c.
  apply IH.
Qed.

Lemma refreshSchedule_eq (config : Config) (fetched : Completion (list CalendarEvent))
    (s : Scheduler) :
  refreshSchedule config fetched s =
  (Normal tt,
   match fetched with
   | Normal events => snd (forEach (scheduleProcessing config) events s)
   | Throw _ => s
   end).
Proof.
  destruct fetched as [events|err]; [|done].
  unfold refreshSchedule, try_catch, bind, await.
  destruct events as [|ev events]; [done|].
  change (length (ev :: events) =? 0)%nat with false. cbv iota.
  pose proof (forEach_scheduleProcessing_completes config (ev :: events) s) as Hc.
  destruct (forEach (scheduleProcessing config) (ev :: events) s) as [c s1].
  simpl in Hc. by subst c.
Qed.

(** No callback throws: every turn that happens completes normally. *)
Lemma step_completes (config : Config) (now : Z) (i : Input) (s : Scheduler)
    (c : Completion unit) (s' : Scheduler) :
  step config now i s = Some (c, s') -> c = Normal tt.
Proof.
  unfold step. destruct (now <? clock s); [done|].
  destruct i as [fetched|k|k o].
  - rewrite refreshSchedule_eq. by intros [= <- _].
  - destruct (timers (with_clock now s) !! k) as [t|]; [|done].
    destruct (due t <=? now); [|done].
    rewrite runCallback_eq. destruct (callback t) as [e|e].
    + by intros [= <- _].
    + intros H. injection H as H. apply (f_equal fst) in H.
      rewrite scheduleProcessing_completes in H. by simpl in H.
  - destruct (suspended (with_clock now s) !! k) as [p|]; [|done].
    destruct p as [e|e d|e d m], o as [r|r|r]; simpl; try done.
    + rewrite afterDocuments_eq. by intros [= <- _].
    + rewrite afterMeeting_eq. by intros [= <- _].
    + rewrite afterPipeline_eq. by intros [= <- _].
Qed.

(** *** Counting *)








(** *** Arming *)

(** Arming when the event is neither tracked nor processed. *)
Lemma scheduleProcessing_arms (config : Config) (ev : CalendarEvent) (s : Scheduler) :
  ev_id ev ∉ scheduledEventIds s ->
  isProcessed (stateFile s) (ev_id ev) = false ->
  exists t,
    callback t = OnMeetingEnded ev /\
    scheduleProcessing config ev s =
    (Normal tt,
     with_timers (timers s ++ [t])
       (with_scheduled ({[ ev_id ev ]} ∪ scheduledEventIds s) s)).
Proof.
  intros Hfree Hnew. rewrite scheduleProcessing_eq.
  rewrite (bool_decide_eq_false_2 _ Hfree), Hnew.
  eexists. split; [|reflexivity]. reflexivity.
Qed.

(** C8. An unreadable or unparseable state file reads as "nothing
    processed": [readState] catches the failure and returns the fresh
    state, so [isProcessed] returns [false] for every id.  Nothing is
    held back by such a file: an event that is not tracked is armed, and
    the next [markProcessed] starts the list afresh. *)
Theorem broken_store_fails_open (f : StateFile) (id : string) :
  f = Unreadable \/ f = Readable Garbage ->
  readState f = freshState /\
  isProcessed f id = false /\
  (forall now, processedIds (readState (markProcessed now id f)) = [id]) /\
  (forall config event s,
     stateFile s = f -> ev_id event = id -> id ∉ scheduledEventIds s ->
     exists t,
       callback t = OnMeetingEnded event /\
       timers (snd (scheduleProcessing config event s)) = timers s ++ [t]).
Proof.
  intros Hf.
  assert (Hread : readState f = freshState) by by destruct Hf as [-> | ->].
  assert (Hnot : isProcessed f id = false)
    by (unfold isProcessed; by rewrite Hread).
  split; [exact Hread|]. split; [exact Hnot|]. split.
  - intros now. rewrite markProcessed_ids, Hread. reflexivity.
  - intros config event s Hfile Hid Hfree. subst id.
    destruct (scheduleProcessing_arms config event s Hfree) as (t & Hcb & Heq).
    + by rewrite Hfile.
    + exists t. split; [exact Hcb|]. by rewrite Heq.
Qed.

Lemma broken_store_fails_open_witness :
  isProcessed Unreadable "41" = false /\
  isProcessed (Readable Garbage) "41" = false.
Proof.
  split.
  - apply (broken_store_fails_open Unreadable "41"). left. reflexivity.
  - apply (broken_store_fails_open (Readable Garbage) "41"). right. reflexivity.
Defined.





Example successful_fire_marks_both :
  exists s',
    run Sample.config ((Sample.T, Refresh (Normal [Sample.event])) :: Sample.successfulFire)
      (startup Sample.T Absent) = Some s' /\
    processedIds (readState (stateFile s')) = ["41"; "late"]%string /\
    map fst (pipelineCalls s') = ["41"%string] /\
    timers s' = [] /\ suspended s' = [].
Proof. eexists. split; [vm_compute; reflexivity|]. repeat split. Qed.

(** *** Retrying *)

(** A fire that finds its document without notes and without transcript
    sets a retry timer two minutes ahead, untracks the event and writes
    nothing to the store, whatever has happened before: the scheduler
    keeps no count of the retries it has made. *)
Lemma not_ready_sets_retry (config : Config) (now : Z) (k : nat)
    (e : CalendarEvent) (d : GranolaDocument) (s : Scheduler) :
  suspended s !! k = Some (AwaitMeeting e d) ->
  panel d = EmptyString ->
  clock s <= now ->
  exists s',
    step config now (Settle k (Transcript (Normal EmptyString))) s = Some (Normal tt, s') /\
    timers s' = timers s ++ [ {| due := now + 120000; callback := OnRetry e |} ] /\
    scheduledEventIds s' = scheduledEventIds s ∖ {[ ev_id e ]} /\
    stateFile s' = stateFile s /\
    pipelineCalls s' = pipelineCalls s.
Proof.
  intros Hk Hpanel Hnow. unfold step.
  replace (now <? clock s) with false by (symmetry; apply Z.ltb_ge; lia).
  simpl. rewrite Hk. simpl. rewrite afterMeeting_eq.
  unfold notReady, fetchMeeting. simpl. rewrite Hpanel. simpl.
  eexists. split; [reflexivity|]. by simpl.
Qed.

(** The retry re-arms the event as if it had just ended, and the fire
    it arms fetches the documents anew. *)
Lemma retry_rearms (config : Config) (now : Z) (k : nat) (due0 : Z)
    (e : CalendarEvent) (s : Scheduler) :
  timers s !! k = Some {| due := due0; callback := OnRetry e |} ->
  due0 <= now -> clock s <= now ->
  isProcessed (stateFile s) (ev_id e) = false ->
  exists s',
    step config now (Timeout k) s = Some (Normal tt, s') /\
    timers s' = delete k (timers s) ++
      [ {| due := now + timerDelay (Z.max (delayAfterMeetingMs config) FLOOR_DELAY);
           callback := OnMeetingEnded (endedAt now e) |} ] /\
    ev_id e ∈ scheduledEventIds s'.
Proof.
  intros Hk Hdue Hnow Hnew. unfold step.
  replace (now <? clock s) with false by (symmetry; apply Z.ltb_ge; lia).
  change (timers (with_clock now s)) with (timers s). rewrite Hk.
  change (due {| due := due0; callback := OnRetry e |}) with due0.
  replace (due0 <=? now) with true by (symmetry; by apply Z.leb_le).
  rewrite runCallback_eq.
  change (callback {| due := due0; callback := OnRetry e |}) with (OnRetry e).
  cbv iota. rewrite scheduleProcessing_eq. simpl.
  rewrite bool_decide_eq_false_2
    by (rewrite elem_of_difference, elem_of_singleton; tauto).
  rewrite Hnew. eexists. split; [reflexivity|]. simpl. split.
  - by replace (now + delayAfterMeetingMs config - now)
      with (delayAfterMeetingMs config) by lia.
  - apply elem_of_union. left. by apply elem_of_singleton.
Qed.

(** C1, on the code.  The matched document has neither notes nor
    transcript at the fire: one retry timer is set.  The retry re-arms
    the event; at the fire it arms the document, fetched anew, is empty
    still — and a second retry timer is set, for the same event, instead
    of the task being abandoned.  Nothing is marked processed. *)
Theorem second_retry_is_scheduled :
  exists first second,
    run Sample.config Sample.firstAttempt (startup Sample.T Absent) = Some first /\
    map callback (timers first) = [OnRetry Sample.event] /\
    run Sample.config Sample.retryAttempt first = Some second /\
    map callback (timers second) =
      [OnRetry (endedAt (Sample.T + Sample.minutes 37) Sample.event)] /\
    map due (timers second) = [Sample.T + Sample.minutes 44] /\
    suspended second = [] /\
    isProcessed (stateFile second) "41" = false /\
    pipelineCalls second = [].
Proof.
  eexists. eexists.
  split; [vm_compute; reflexivity|].
  split; [reflexivity|].
  split; [vm_compute; reflexivity|].
  repeat split.
Qed.

(** The retry untracks the event for two minutes.  A calendar refresh in
    that window arms the event, and the retry arms it once more: the
    bound of one task per event holds for [scheduleProcessing] alone, not
    for the retry path. *)
Example refresh_in_retry_window_arms_twice :
  exists s,
    run Sample.config (Sample.firstAttempt ++ Sample.refreshBeforeRetry)
      (startup Sample.T Absent) = Some s /\
    scheduledTasks "41" s = 2%nat /\
    map due (timers s) = [Sample.T + Sample.minutes 37 + 15000;
                          Sample.T + Sample.minutes 42].
Proof. eexists. split; [vm_compute; reflexivity|]. split; reflexivity. Qed.

Lemma difference_absent (ids : gset string) (id : string) :
  id ∉ ids -> ids ∖ {[ id ]} = ids.
Proof.
  intros Hfree. apply set_eq. intros x.
  rewrite elem_of_difference, elem_of_singleton.
  split; [tauto|]. intros Hx. split; [done|]. by intros ->.
Qed.

Lemma difference_added (ids : gset string) (id : string) :
  id ∉ ids -> ({[ id ]} ∪ ids) ∖ {[ id ]} = ids.
Proof.
  intros Hfree. apply set_eq. intros x.
  rewrite elem_of_difference, elem_of_union, elem_of_singleton.
  split; [tauto|]. intros Hx. split; [by right|]. by intros ->.
Qed.

(** The matcher reads the title and the start of the event only. *)
Lemma findMatchingDoc_endedAt (docs : list GranolaDocument) (now : Z)
    (e : CalendarEvent) :
  findMatchingDoc docs (endedAt now e) = findMatchingDoc docs e.
Proof. reflexivity. Qed.

Lemma run_app (config : Config) (a b : list (Z * Input)) (s : Scheduler) :
  run config (a ++ b) s =
  match run config a s with
  | Some s' => run config b s'
  | None => None
  end.
Proof.
  revert s. induction a as [|[now i] a IH]; intros s; simpl; [done|].
  destruct (step config now i s) as [[[|] s1]|]; auto.
Qed.

Ltac sched_simpl :=
  cbn [with_clock with_scheduled with_stateFile with_timers with_suspended
       with_pipelineCalls clock scheduledEventIds stateFile timers suspended
       pipelineCalls due callback ev_id ev_end ev_start summary calendarName
       endedAt delete list_delete app resume fst snd].

(** A round of retrying ends where it began: with a retry timer for the
    same event id and nothing marked. *)
Lemma retry_round (config : Config) (docs : list GranolaDocument)
    (d : GranolaDocument) (e : CalendarEvent) (f : StateFile) (ids : gset string)
    (clk due0 t : Z) :
  delayAfterMeetingMs config <= TIMEOUT_MAX ->
  findMatchingDoc docs e = Some d ->
  panel d = EmptyString ->
  isProcessed f (ev_id e) = false ->
  isProcessed f (doc_id d) = false ->
  ev_id e ∉ ids ->
  due0 <= t -> clk <= t ->
  let fire := t + Z.max (delayAfterMeetingMs config) FLOOR_DELAY in
  run config (retryRound config docs t) (awaitingRetry clk due0 e f ids) =
  Some (awaitingRetry fire (fire + RETRY_DELAY) (endedAt t e) f ids).
Proof.
  intros Hmax Hmatch Hpanel Hnew Hdoc Hfree Hdue Hclk fire.
  assert (Hdelay : timerDelay (Z.max (delayAfterMeetingMs config) FLOOR_DELAY)
                   = Z.max (delayAfterMeetingMs config) FLOOR_DELAY).
  { unfold timerDelay, FLOOR_DELAY, TIMEOUT_MAX in *.
    destruct (1 <=? _) eqn:H1; destruct (_ <=? 2147483647) eqn:H2; simpl; try done;
      rewrite ?Z.leb_gt, ?Z.leb_le in *; lia. }
  assert (Hids : ids ∖ {[ ev_id e ]} = ids) by by apply difference_absent.
  assert (Hids' : ({[ ev_id e ]} ∪ ids) ∖ {[ ev_id e ]} = ids)
    by by apply difference_added.
  assert (Hfire : t <= fire) by (unfold fire, FLOOR_DELAY; lia).
  unfold retryRound. fold fire. cbn [run].
  (* the retry timer elapses *)
  unfold step at 1, awaitingRetry. sched_simpl.
  replace (t <? clk) with false by (symmetry; apply Z.ltb_ge; lia).
  simpl (_ !! 0%nat). sched_simpl.
  replace (due0 <=? t) with true by (symmetry; by apply Z.leb_le).
  rewrite runCallback_eq, scheduleProcessing_eq. sched_simpl.
  rewrite Hids, (bool_decide_eq_false_2 _ Hfree), Hnew.
  replace (t + delayAfterMeetingMs config - t) with (delayAfterMeetingMs config) by lia.
  rewrite Hdelay. fold fire.
  (* the timer it armed elapses *)
  unfold step at 1. sched_simpl.
  replace (fire <? t) with false by (symmetry; apply Z.ltb_ge; lia).
  simpl (_ !! 0%nat). sched_simpl.
  rewrite Z.leb_refl, runCallback_eq. sched_simpl.
  (* the documents arrive *)
  unfold step at 1. sched_simpl. rewrite Z.ltb_irrefl.
  simpl (_ !! 0%nat). sched_simpl.
  rewrite afterDocuments_eq, findMatchingDoc_endedAt, Hmatch. sched_simpl.
  rewrite Hdoc. sched_simpl.
  (* the transcript is empty *)
  unfold step at 1. sched_simpl. rewrite Z.ltb_irrefl.
  simpl (_ !! 0%nat). sched_simpl.
  rewrite afterMeeting_eq.
  assert (Hnr : notReady (fetchMeeting d EmptyString) = true)
    by (unfold notReady, fetchMeeting; simpl; by rewrite Hpanel).
  rewrite Hnr. sched_simpl. rewrite Hids'. reflexivity.
Qed.

(** However many rounds have gone by, while the document stays empty the
    scheduler is waiting for yet another retry of the same event. *)
Lemma retries_never_stop (config : Config) (docs : list GranolaDocument)
    (d : GranolaDocument) (f : StateFile) (ids : gset string) (n : nat) :
  delayAfterMeetingMs config <= TIMEOUT_MAX ->
  panel d = EmptyString ->
  isProcessed f (doc_id d) = false ->
  forall (e : CalendarEvent) (clk due0 t : Z),
    findMatchingDoc docs e = Some d ->
    isProcessed f (ev_id e) = false ->
    ev_id e ∉ ids ->
    due0 <= t -> clk <= t ->
    exists clk' due' e',
      run config (retryRounds config docs n t) (awaitingRetry clk due0 e f ids) =
      Some (awaitingRetry clk' due' e' f ids) /\
      ev_id e' = ev_id e.
Proof.
  intros Hmax Hpanel Hdoc.
  induction n as [|n IH]; intros e clk due0 t Hmatch Hnew Hfree Hdue Hclk.
  - exists clk, due0, e. by split.
  - cbn [retryRounds]. rewrite run_app.
    rewrite (retry_round config docs d e f ids clk due0 t) by done.
    destruct (IH (endedAt t e)
                (t + Z.max (delayAfterMeetingMs config) FLOOR_DELAY)
                (t + Z.max (delayAfterMeetingMs config) FLOOR_DELAY + RETRY_DELAY)
                (t + Z.max (delayAfterMeetingMs config) FLOOR_DELAY + RETRY_DELAY))
      as (clk' & due' & e' & Hrun & Hid);
      [by rewrite findMatchingDoc_endedAt | done | done | lia
      | unfold RETRY_DELAY; lia |].
    exists clk', due', e'. by split.
Qed.

(** * Further properties *)

(** ** The matcher *)

Lemma includes_empty (s : string) : Js.includes s EmptyString = true.
Proof. apply includes_spec. by exists EmptyString, s. Qed.

Lemma head_sort_None {A : Type} (cmp : A -> A -> option Z) (l : list A) :
  head (Js.sort cmp l) = None -> l = [].
Proof.
  intros Hhead. destruct (Js.sort cmp l) as [|x r] eqn:Hs; [|done].
  apply Permutation_nil_r. rewrite <- Hs. symmetry. apply sort_perm.
Qed.

Lemma filter_nil_false {A : Type} (f : A -> bool) (l : list A) :
  List.filter f l = [] <-> forall x, x ∈ l -> f x = false.
Proof.
  induction l as [|y l IH]; simpl.
  - split; [intros _ x Hx; by apply elem_of_nil in Hx | done].
  - destruct (f y) eqn:Hy.
    + split; [done|]. intros H. specialize (H y (list_elem_of_here _ _)). congruence.
    + rewrite IH. split.
      * intros H x Hx. apply elem_of_cons in Hx as [-> | Hx]; auto.
      * intros H x Hx. apply H. by right.
Qed.

(** What the matcher returns is one of the candidates, created less than
    two hours from the start of the event; unless its title is related to
    the title of the event, less than thirty minutes from it. *)
Theorem match_is_candidate_in_window (docs : list GranolaDocument)
    (ev : CalendarEvent) (d : GranolaDocument) :
  findMatchingDoc docs ev = Some d ->
  d ∈ docs /\
  exists t,
    created_at d = Some t /\
    Z.abs (t - ev_start ev) < TWO_HOURS /\
    (titleRelated (eventTitle ev) d = true \/
     Z.abs (t - ev_start ev) < THIRTY_MINUTES).
Proof.
  intros Hfound.
  destruct (titleMatches docs ev) as [|x r] eqn:Htm.
  - rewrite (findMatchingDoc_fallback _ _ Htm) in Hfound.
    assert (Hin : d ∈ timeMatches docs ev).
    { destruct (timeMatches docs ev) as [|y l]; [done|].
      injection Hfound as ->. left. }
    apply elem_of_timeMatches in Hin as [Hin Hband].
    apply isTimeMatch_spec in Hband as (t & Ht & Hlt).
    split; [done|]. exists t. split; [done|].
    unfold TWO_HOURS, THIRTY_MINUTES in *. split; [lia | right; lia].
  - assert (Hne : titleMatches docs ev <> []) by by rewrite Htm.
    rewrite (findMatchingDoc_title_step _ _ Hne) in Hfound.
    apply firstLeast_elem, elem_of_titleMatches in Hfound as [Hin Hband].
    apply isTitleMatch_spec in Hband as ((t & Ht & Hlt) & Hrel).
    split; [done|]. exists t. auto.
Qed.

Lemma match_is_candidate_in_window_witness :
  Sample.planning ∈ [Sample.planning; Sample.random] /\
  exists t,
    created_at Sample.planning = Some t /\
    Z.abs (t - ev_start Sample.event) < TWO_HOURS.
Proof.
  destruct (match_is_candidate_in_window [Sample.planning; Sample.random]
              Sample.event Sample.planning eq_refl) as (Hin & t & Ht & Hlt & _).
  split; [exact Hin|]. exists t. split; [exact Ht | exact Hlt].
Defined.

(** The matcher finds nothing exactly when no candidate lies in either
    band. *)
Theorem no_match_iff_bands_empty (docs : list GranolaDocument) (ev : CalendarEvent) :
  findMatchingDoc docs ev = None <->
  forall d, d ∈ docs -> isTitleMatch ev d = false /\ isTimeMatch ev d = false.
Proof.
  split.
  - intros Hnone.
    assert (Htm : titleMatches docs ev = []).
    { destruct (titleMatches docs ev) as [|x r] eqn:Htm; [done|].
      assert (Hne : titleMatches docs ev <> []) by by rewrite Htm.
      rewrite (findMatchingDoc_title_step _ _ Hne) in Hnone.
      destruct (firstLeast_nonempty (distance ev) _ Hne) as [m Hm]. congruence. }
    rewrite (findMatchingDoc_fallback _ _ Htm) in Hnone.
    apply head_sort_None in Hnone.
    intros d Hd. split.
    + by apply (proj1 (filter_nil_false _ _) Htm).
    + by apply (proj1 (filter_nil_false _ _) Hnone).
  - intros Hall.
    assert (Htm : titleMatches docs ev = []).
    { apply filter_nil_false. intros d Hd. by apply Hall. }
    rewrite (findMatchingDoc_fallback _ _ Htm). unfold timeMatches.
    replace (List.filter (isTimeMatch ev) docs) with (@nil GranolaDocument); [done|].
    symmetry. apply filter_nil_false. intros d Hd. by apply Hall.
Qed.

(** The fallback step orders like the title step: of the candidates
    created less than thirty minutes from the start it returns one at
    least distance, the first listed of those. *)
Theorem fallback_closest_first_listed (docs : list GranolaDocument)
    (ev : CalendarEvent) :
  titleMatches docs ev = [] ->
  List.filter (isTimeMatch ev) docs <> [] ->
  exists d pre post,
    findMatchingDoc docs ev = Some d /\
    List.filter (isTimeMatch ev) docs = pre ++ d :: post /\
    Forall (fun x => distance ev d < distance ev x) pre /\
    Forall (fun x => distance ev d <= distance ev x) post.
Proof.
  intros Htm Hne. rewrite (findMatchingDoc_fallback _ _ Htm). unfold timeMatches.
  rewrite (head_sort_firstLeast _ (distance ev)).
  - destruct (firstLeast_nonempty (distance ev) _ Hne) as [d Hd].
    destruct (firstLeast_split _ _ _ Hd) as (pre & post & Hsplit & Hpre & Hpost).
    exists d, pre, post. by rewrite Hd.
  - intros a b Ha Hb.
    apply list_elem_of_In, filter_In in Ha as [_ Ha], Hb as [_ Hb].
    apply isTimeMatch_spec in Ha as (ta & Hta & _), Hb as (tb & Htb & _).
    apply sorts_after_distance; eauto.
Qed.

Lemma fallback_closest_first_listed_witness :
  exists d,
    findMatchingDoc
      [Sample.mkDoc "a" "Retro" (Sample.T + Sample.minutes 20) EmptyString;
       Sample.mkDoc "b" "1:1" (Sample.T - Sample.minutes 20) EmptyString;
       Sample.mkDoc "c" "Sync" (Sample.T + Sample.minutes 7) EmptyString]
      Sample.event = Some d /\
    doc_id d = "c"%string.
Proof.
  destruct (fallback_closest_first_listed
      [Sample.mkDoc "a" "Retro" (Sample.T + Sample.minutes 20) EmptyString;
       Sample.mkDoc "b" "1:1" (Sample.T - Sample.minutes 20) EmptyString;
       Sample.mkDoc "c" "Sync" (Sample.T + Sample.minutes 7) EmptyString]
      Sample.event)
    as (d & pre & post & Hd & _).
  - reflexivity.
  - vm_compute. discriminate.
  - exists d. split; [exact Hd|].
    vm_compute in Hd. injection Hd as <-. reflexivity.
Defined.

(** An event whose title is blank (empty after trimming) is related to
    every title, and so is a document whose title is blank: for those the
    title step keeps every candidate created less than two hours from
    the start. *)
Theorem blank_title_matches_all (ev : CalendarEvent) (d : GranolaDocument) :
  eventTitle ev = EmptyString \/
  Js.trim (Js.toLowerCase (title d)) = EmptyString ->
  isTitleMatch ev d = Js.num_lt (timeDiff (ev_start ev) d) TWO_HOURS.
Proof.
  intros Hblank. unfold isTitleMatch. cbv zeta.
  replace (titleRelated (eventTitle ev) d) with true; [by rewrite andb_true_r|].
  symmetry. unfold titleRelated. cbv zeta.
  destruct Hblank as [-> | ->]; rewrite includes_empty;
    by rewrite ?orb_true_r.
Qed.

Lemma blank_title_matches_all_witness :
  findMatchingDoc [Sample.planning; Sample.random]
    {| ev_id := "42"; summary := "   "; ev_start := Sample.T;
       ev_end := Sample.T + 1; calendarName := "Work" |}
  = Some Sample.random /\
  isTitleMatch
    {| ev_id := "42"; summary := "   "; ev_start := Sample.T;
       ev_end := Sample.T + 1; calendarName := "Work" |} Sample.random = true.
Proof.
  split; [reflexivity|].
  rewrite (blank_title_matches_all _ Sample.random); [reflexivity|].
  left. reflexivity.
Defined.

(** ** The scheduler *)

Lemma step_completes_witness :
  exists s',
    step Sample.config (Sample.T + Sample.minutes 37)
      (Settle 0%nat (Pipeline (Throw "timeout"))) Sample.inPipeline
    = Some (Normal tt, s').
Proof.
  destruct (step Sample.config (Sample.T + Sample.minutes 37)
              (Settle 0%nat (Pipeline (Throw "timeout"))) Sample.inPipeline)
    as [[c s']|] eqn:Hstep.
  - exists s'. by rewrite (step_completes _ _ _ _ _ _ Hstep).
  - vm_compute in Hstep. discriminate Hstep.
Defined.

Lemma step_settle (config : Config) (now : Z) (k : nat) (p : Suspended)
    (o : Outcome) (m : M unit) (s : Scheduler) :
  suspended s !! k = Some p ->
  clock s <= now ->
  resume p o = Some m ->
  step config now (Settle k o) s =
  Some (m (with_suspended (delete k (suspended s)) (with_clock now s))).
Proof.
  intros Hk Hnow Hres. unfold step.
  replace (now <? clock s) with false by (symmetry; apply Z.ltb_ge; lia).
  change (suspended (with_clock now s)) with (suspended s).
  by rewrite Hk, Hres.
Qed.

(** A fire whose document fetch fails, or that finds no matching
    document, gives the event up for now: the id leaves the tracked set,
    nothing is written to the store, no timer is set and the pipeline is
    not called.  The event, if not processed, can be armed again. *)
Theorem no_notes_releases_event (config : Config) (now : Z) (k : nat)
    (e : CalendarEvent) (r : Completion (list GranolaDocument)) (s : Scheduler) :
  suspended s !! k = Some (AwaitDocuments e) ->
  clock s <= now ->
  match r with
  | Normal docs => findMatchingDoc docs e = None
  | Throw _ => True
  end ->
  step config now (Settle k (Documents r)) s =
  Some (Normal tt,
        {| clock := now;
           scheduledEventIds := scheduledEventIds s ∖ {[ ev_id e ]};
           stateFile := stateFile s;
           timers := timers s;
           suspended := delete k (suspended s);
           pipelineCalls := pipelineCalls s |}).
Proof.
  intros Hk Hnow Hr.
  rewrite (step_settle config now k _ (Documents r) (afterDocuments e r) s Hk Hnow eq_refl).
  rewrite afterDocuments_eq.
  destruct r as [docs|err]; [rewrite Hr|]; reflexivity.
Qed.

Lemma no_notes_releases_event_witness :
  exists s',
    step Sample.config (Sample.T + Sample.minutes 36)
      (Settle 0%nat (Documents (Normal [])))
      {| clock := Sample.T + Sample.minutes 35;
         scheduledEventIds := {[ "41"%string ]};
         stateFile := Absent; timers := [];
         suspended := [AwaitDocuments Sample.event];
         pipelineCalls := [] |}
    = Some (Normal tt, s') /\
    scheduledEventIds s' = {[ "41"%string ]} ∖ {[ "41"%string ]} /\
    stateFile s' = Absent /\ timers s' = [] /\ pipelineCalls s' = [].
Proof.
  eexists. split.
  - apply (no_notes_releases_event Sample.config (Sample.T + Sample.minutes 36)
             0%nat Sample.event (Normal [])).
    + reflexivity.
    + vm_compute. discriminate.
    + reflexivity.
  - repeat split.
Defined.







Lemma notReady_false (m : MeetingData) :
  notReady m = false ->
  notesMarkdown m <> EmptyString \/ transcript m <> EmptyString.
Proof.
  unfold notReady. rewrite andb_false_iff, !String.eqb_neq. tauto.
Qed.

Lemma scheduleProcessing_pipelineCalls (config : Config) (ev : CalendarEvent)
    (s : Scheduler) :
  pipelineCalls (snd (scheduleProcessing config ev s)) = pipelineCalls s.
Proof.
  rewrite scheduleProcessing_eq.
  destruct (bool_decide _); [done|]. by destruct (isProcessed _ _).
Qed.

Lemma forEach_scheduleProcessing_pipelineCalls (config : Config)
    (events : list CalendarEvent) (s : Scheduler) :
  pipelineCalls (snd (forEach (scheduleProcessing config) events s))
  = pipelineCalls s.
Proof.
  revert s. induction events as [|ev events IH]; intros s; [done|].
  simpl. unfold bind.
  pose proof (scheduleProcessing_completes config ev s) as Hc.
  pose proof (scheduleProcessing_pipelineCalls config ev s) as Hp.
  destruct (scheduleProcessing config ev s) as [c s1]. simpl in Hc, Hp. subst c.
  by rewrite IH.
Qed.

Lemma step_pipelineCalls (config : Config) (now : Z) (i : Input) (s : Scheduler)
    (c : Completion unit) (s' : Scheduler) :
  step config now i s = Some (c, s') ->
  exists new,
    pipelineCalls s' = pipelineCalls s ++ new /\
    Forall (fun call => notReady (snd call) = false) new.
Proof.
  unfold step. destruct (now <? clock s); [done|].
  change (pipelineCalls s) with (pipelineCalls (with_clock now s)).
  generalize (with_clock now s). clear s. intros s.
  destruct i as [fetched|k|k o].
  - rewrite refreshSchedule_eq. intros [= _ <-]. exists [].
    rewrite app_nil_r. split; [|constructor].
    destruct fetched; [apply forEach_scheduleProcessing_pipelineCalls | done].
  - destruct (timers s !! k) as [t|]; [|done].
    destruct (due t <=? now); [|done].
    rewrite runCallback_eq. destruct (callback t) as [e|e].
    + intros [= _ <-]. exists []. by rewrite app_nil_r.
    + intros H. injection H as H. apply (f_equal snd) in H. simpl in H. subst s'.
      exists []. rewrite app_nil_r, scheduleProcessing_pipelineCalls.
      split; [done | constructor].
  - destruct (suspended s !! k) as [p|]; [|done].
    destruct p as [e|e d|e d m], o as [r|r|r]; simpl; try done.
    + rewrite afterDocuments_eq. intros [= _ <-]. exists [].
      rewrite app_nil_r. split; [|constructor].
      destruct r as [docs|err]; [|done].
      destruct (findMatchingDoc docs e); [|done].
      by destruct (isProcessed _ _).
    + rewrite afterMeeting_eq. intros [= _ <-].
      destruct r as [formatted|err]; [|exists []; by rewrite app_nil_r].
      destruct (notReady (fetchMeeting d formatted)) eqn:Hready.
      * exists []. by rewrite app_nil_r.
      * exists [(ev_id e, fetchMeeting d formatted)]. split; [done|].
        by constructor.
    + rewrite afterPipeline_eq. intros [= _ <-]. exists [].
      rewrite app_nil_r. split; [|constructor]. by destruct r as [[]|err].
Qed.

(** The pipeline is only ever called with a meeting that has notes or a
    transcript: in every run, each call made is for a meeting whose notes
    or transcript are not empty, and calls already made are never
    withdrawn. *)
Theorem pipeline_only_for_ready_meetings (config : Config)
    (turns : list (Z * Input)) (s s' : Scheduler) :
  run config turns s = Some s' ->
  exists new,
    pipelineCalls s' = pipelineCalls s ++ new /\
    Forall (fun call => notesMarkdown (snd call) <> EmptyString \/
                        transcript (snd call) <> EmptyString) new.
Proof.
  revert s. induction turns as [|[now i] turns IH]; intros s; simpl.
  - intros [= <-]. exists []. by rewrite app_nil_r.
  - destruct (step config now i s) as [[c s1]|] eqn:Hstep; [|done].
    destruct c; [|done]. intros Hrun.
    destruct (step_pipelineCalls _ _ _ _ _ _ Hstep) as (new1 & Heq1 & Hall1).
    destruct (IH s1 Hrun) as (new2 & Heq2 & Hall2).
    exists (new1 ++ new2). rewrite Heq2, Heq1, app_assoc. split; [done|].
    apply Forall_app. split; [|done].
    eapply Forall_impl; [exact Hall1|]. intros call. apply notReady_false.
Qed.

Lemma pipeline_only_for_ready_meetings_witness :
  exists s' new,
    run Sample.config
      ((Sample.T, Refresh (Normal [Sample.event])) :: Sample.successfulFire)
      (startup Sample.T Absent) = Some s' /\
    pipelineCalls s' = new /\
    Forall (fun call => notesMarkdown (snd call) <> EmptyString \/
                        transcript (snd call) <> EmptyString) new.
Proof.
  destruct (run Sample.config
      ((Sample.T, Refresh (Normal [Sample.event])) :: Sample.successfulFire)
      (startup Sample.T Absent)) as [s'|] eqn:Hrun.
  - destruct (pipeline_only_for_ready_meetings _ _ _ _ Hrun) as (new & Heq & Hall).
    exists s', new. split; [reflexivity|]. split; [exact Heq | exact Hall].
  - vm_compute in Hrun. discriminate Hrun.
Defined.

(** *** The refresh loop *)







Example refresh_lists_event_twice :
  map due (timers (snd (refreshSchedule Sample.config
                          (Normal [Sample.event; Sample.eventMoved; Sample.event])
                          (startup Sample.T Absent))))
  = [Sample.T + Sample.minutes 35].
Proof. reflexivity. Qed.

(** *** When the timer is due *)

(** For an event that is armed, with a wait within the range of the
    timers of the runtime, the timer is due at the end of the meeting
    plus the configured delay, or thirty seconds after arming if that is
    later. *)
Theorem armed_timer_due (config : Config) (event : CalendarEvent) (s : Scheduler) :
  ev_id event ∉ scheduledEventIds s ->
  isProcessed (stateFile s) (ev_id event) = false ->
  ev_end event + delayAfterMeetingMs config - clock s <= TIMEOUT_MAX ->
  timers (snd (scheduleProcessing config event s)) =
  timers s ++
    [ {| due := Z.max (ev_end event + delayAfterMeetingMs config) (clock s + 30000);
         callback := OnMeetingEnded event |} ].
Proof.
  intros Hfree Hnew Hrange. rewrite scheduleProcessing_eq.
  rewrite (bool_decide_eq_false_2 _ Hfree), Hnew. simpl.
  do 3 f_equal.
  unfold timerDelay, FLOOR_DELAY, TIMEOUT_MAX in *.
  destruct (1 <=? _) eqn:H1; destruct (_ <=? 2147483647) eqn:H2; simpl;
    rewrite ?Z.leb_gt, ?Z.leb_le in *; lia.
Qed.

Lemma armed_timer_due_witness :
  timers (snd (scheduleProcessing Sample.config Sample.event
                 (startup Sample.T Absent))) =
  [ {| due := Sample.T + Sample.minutes 35;
       callback := OnMeetingEnded Sample.event |} ].
Proof.
  rewrite (armed_timer_due Sample.config Sample.event (startup Sample.T Absent)).
  - reflexivity.
  - apply not_elem_of_empty.
  - reflexivity.
  - vm_compute. discriminate.
Defined.

(** *** Retrying *)

Lemma retries_never_stop_witness :
  exists clk' due' e',
    run Sample.config
      (retryRounds Sample.config [Sample.planning; Sample.random] 3
         (Sample.T + Sample.minutes 37))
      (awaitingRetry (Sample.T + Sample.minutes 35) (Sample.T + Sample.minutes 37)
         Sample.event Absent ∅)
    = Some (awaitingRetry clk' due' e' Absent ∅) /\
    ev_id e' = "41"%string.
Proof.
  apply (retries_never_stop Sample.config [Sample.planning; Sample.random]
           Sample.planning Absent ∅ 3).
  - vm_compute. discriminate.
  - reflexivity.
  - reflexivity.
  - reflexivity.
  - reflexivity.
  - apply not_elem_of_empty.
  - apply Z.le_refl.
  - vm_compute. discriminate.
Defined.

(** ** The dedup store *)

Lemma markProcessed_NoDup (now : Z) (id : string) (f : StateFile) :
  NoDup (processedIds (readState f)) ->
  NoDup (processedIds (readState (markProcessed now id f))).
Proof.
  intros Hnd. rewrite markProcessed_ids. cbv zeta.
  destruct (includesId (processedIds (readState f)) id) eqn:Hin; [done|].
  apply includesId_false in Hin.
  assert (Hpushed : NoDup (processedIds (readState f) ++ [id])).
  { apply NoDup_app. split; [done|]. split; [|apply NoDup_singleton].
    intros x Hx Hx'. apply list_elem_of_singleton in Hx'. by subst x. }
  destruct (MAX_IDS <? _)%nat; [|done].
  unfold slice_last. exact (sublist_NoDup _ _ Hpushed (sublist_drop _ _)).
Qed.

(** The store never lists an id twice: no sequence of [markProcessed]
    calls introduces a duplicate. *)
Theorem store_has_no_duplicates (calls : list (Z * string)) (f : StateFile) :
  NoDup (processedIds (readState f)) ->
  NoDup (processedIds (readState (markAll calls f))).
Proof.
  revert f. induction calls as [|[now id] calls IH]; intros f Hnd; [done|].
  apply IH. by apply markProcessed_NoDup.
Qed.

Lemma store_has_no_duplicates_witness :
  NoDup (processedIds (readState
    (markAll [(1, "a"); (2, "b"); (3, "a"); (4, "c"); (5, "b")]%string Absent))).
Proof.
  apply (store_has_no_duplicates
           [(1, "a"); (2, "b"); (3, "a"); (4, "c"); (5, "b")]%string Absent).
  simpl. apply NoDup_nil. exact I.
Defined.

Lemma markProcessed_only_marked (now : Z) (id id' : string) (f : StateFile) :
  isProcessed (markProcessed now id f) id' = true ->
  isProcessed f id' = true \/ id' = id.
Proof.
  unfold isProcessed. rewrite markProcessed_ids. cbv zeta.
  destruct (includesId (processedIds (readState f)) id); [by left|].
  rewrite !includesId_true. intros Hin.
  assert (Hpushed : id' ∈ processedIds (readState f) ++ [id]).
  { destruct (MAX_IDS <? _)%nat; [|done].
    unfold slice_last in Hin. exact (elem_of_sublist _ _ _ Hin (sublist_drop _ _)). }
  apply elem_of_app in Hpushed as [H | H]; [by left|].
  right. by apply list_elem_of_singleton in H.
Qed.

(** The store holds only ids that were marked: an id that is processed
    after a sequence of [markProcessed] calls was processed before it or
    is the id of one of the calls.  After a reset, then, exactly the ids
    marked since can be processed. *)
Theorem store_holds_only_marked_ids (calls : list (Z * string)) (f : StateFile)
    (id : string) :
  isProcessed (markAll calls f) id = true ->
  isProcessed f id = true \/ id ∈ map snd calls.
Proof.
  revert f. induction calls as [|[now id0] calls IH]; intros f Hin; [by left|].
  simpl in Hin. apply IH in Hin as [Hin | Hin].
  - apply markProcessed_only_marked in Hin as [Hin | ->]; [by left|].
    right. simpl. left.
  - right. simpl. by right.
Qed.

Lemma store_holds_only_marked_ids_witness :
  isProcessed (markAll [(1, "a"); (2, "b")]%string resetState) "b" = true /\
  ("b"%string ∈ map snd [(1, "a"); (2, "b")]%string).
Proof.
  assert (H : isProcessed (markAll [(1, "a"); (2, "b")]%string resetState) "b" = true)
    by reflexivity.
  split; [exact H|].
  destruct (store_holds_only_marked_ids _ _ _ H) as [Hold | Hnew].
  - vm_compute in Hold. discriminate Hold.
  - exact Hnew.
Defined.

(** Marking an id drops at most the oldest entry, and only from a full
    store: an id that was processed and no longer is after a call was
    the first of a list of 500, and the id marked was new. *)
Theorem only_the_oldest_is_evicted (now : Z) (id id' : string) (f : StateFile) :
  (length (processedIds (readState f)) <= 500)%nat ->
  isProcessed f id' = true ->
  isProcessed (markProcessed now id f) id' = false ->
  length (processedIds (readState f)) = 500%nat /\
  isProcessed f id = false /\
  head (processedIds (readState f)) = Some id'.
Proof.
  unfold isProcessed. rewrite markProcessed_ids. cbv zeta.
  intros Hlen Hwas Hgone.
  destruct (includesId (processedIds (readState f)) id) eqn:Hid; [congruence|].
  apply includesId_true in Hwas. apply includesId_false in Hgone.
  destruct (MAX_IDS <? _)%nat eqn:Hover.
  - apply Nat.ltb_lt in Hover. rewrite length_app in Hover. simpl in Hover.
    unfold MAX_IDS in *.
    assert (Hfull : length (processedIds (readState f)) = 500%nat) by lia.
    split; [done|]. split; [done|].
    unfold slice_last in Hgone. rewrite length_app, Hfull in Hgone.
    simpl in Hgone.
    destruct (processedIds (readState f)) as [|h t]; [by apply elem_of_nil in Hwas|].
    simpl in Hgone. simpl. f_equal.
    apply elem_of_cons in Hwas as [-> | Hwas]; [done|].
    exfalso. apply Hgone. rewrite drop_0. apply elem_of_app. by left.
  - exfalso. apply Hgone. apply elem_of_app. by left.
Qed.

Lemma only_the_oldest_is_evicted_witness :
  head (processedIds (readState Sample.fullStore)) = Some "0"%string /\
  isProcessed (markProcessed 7 "new" Sample.fullStore) "0" = false /\
  isProcessed (markProcessed 7 "new" Sample.fullStore) "1" = true.
Proof.
  assert (Hgone : isProcessed (markProcessed 7 "new" Sample.fullStore) "0" = false)
    by (vm_compute; reflexivity).
  destruct (only_the_oldest_is_evicted 7 "new" "0" Sample.fullStore) as (_ & _ & Hhead).
  - assert (H : length (processedIds (readState Sample.fullStore)) = 500%nat)
      by (vm_compute; reflexivity).
    rewrite H. apply le_n.
  - vm_compute. reflexivity.
  - exact Hgone.
  - split; [exact Hhead|]. split; [exact Hgone|]. vm_compute. reflexivity.
Defined.




(** ** The calendar source *)

(** [getDbPath] returns the path under "Group Containers" if that file
    exists, otherwise the path under "Calendars" if that one exists, and
    throws only if neither does; a path it returns exists. *)
Theorem getDbPath_first_existing (h : Host) :
  let group := join [homedir h; "Library"; "Group Containers";
                     "group.com.apple.calendar"; "Calendar.sqlitedb"]%string in
  let legacy := join [homedir h; "Library"; "Calendars"; "Calendar.sqlitedb"]%string in
  (pathExists h group = true -> getDbPath h = Normal group) /\
  (pathExists h group = false -> pathExists h legacy = true ->
   getDbPath h = Normal legacy) /\
  (completes (getDbPath h) = false <->
   pathExists h group = false /\ pathExists h legacy = false) /\
  (forall p, getDbPath h = Normal p -> pathExists h p = true).
Proof.
  cbv zeta. unfold getDbPath, dbPaths. simpl.
  destruct (pathExists h (join [homedir h; _; _; _; _]%string)) eqn:Hg;
    [|destruct (pathExists h (join [homedir h; _; _; _]%string)) eqn:Hl]; simpl.
  - repeat split; try done. + by intros [? _]. + by intros p [= <-].
  - repeat split; try done. + by intros [_ ?]. + by intros p [= <-].
  - repeat split; done.
Qed.

Lemma getDbPath_first_existing_witness :
  getDbPath Sample.lockedCalendar
  = Normal "/Users/me/Library/Calendars/Calendar.sqlitedb"%string.
Proof.
  destruct (getDbPath_first_existing Sample.lockedCalendar) as (_ & H & _).
  apply H; reflexivity.
Defined.

Lemma todaySql_bounds (h : Host) (now : Z) :
  endApple (todaySql h now) = startApple (todaySql h now) + 86400 /\
  startApple (todaySql h now) = localMidnight h now / 1000 - APPLE_EPOCH_OFFSET.
Proof.
  unfold todaySql. simpl. split; [|done].
  replace (localMidnight h now + 24 * 60 * 60 * 1000)
    with (localMidnight h now + 86400 * 1000) by lia.
  rewrite Z.div_add by lia. lia.
Qed.

(** The query always asks for a window of exactly 86400 seconds that
    starts at the second of the local midnight, whatever the time of day
    at which it is made. *)
Theorem query_window_is_one_day (h : Host) (now : Z) :
  endApple (todaySql h now) - startApple (todaySql h now) = 86400 /\
  toJsDate (startApple (todaySql h now)) = localMidnight h now / 1000 * 1000.
Proof.
  destruct (todaySql_bounds h now) as [-> ->]. unfold toJsDate. lia.
Qed.

(** A row that passes the bounds of the query becomes an event that
    starts within the 24 hours from the (whole-second) midnight of the
    query; the length of the event is the length of the row, in
    milliseconds. *)
Theorem row_within_bounds_is_today (h : Host) (now : Z) (row : Row) :
  startApple (todaySql h now) <= ZSTARTDATE row < endApple (todaySql h now) ->
  let midnight := localMidnight h now / 1000 * 1000 in
  midnight <= ev_start (rowToEvent row) < midnight + 86400000 /\
  ev_end (rowToEvent row) - ev_start (rowToEvent row)
    = 1000 * (ZENDDATE row - ZSTARTDATE row).
Proof.
  destruct (todaySql_bounds h now) as [-> ->].
  unfold rowToEvent, toJsDate. simpl. lia.
Qed.

Lemma row_within_bounds_is_today_witness :
  let row := {| ROWID := 41; ZSUMMARY := "Sprint Planning";
                ZSTARTDATE := 721694000; ZENDDATE := 721695800;
                ZTITLE := None |} in
  ev_start (rowToEvent row) = 1700001200000 /\
  ev_end (rowToEvent row) - ev_start (rowToEvent row) = 1800000.
Proof.
  intros row.
  destruct (row_within_bounds_is_today Sample.lockedCalendar Sample.T row)
    as [_ Hlen].
  - vm_compute. split; [discriminate | reflexivity].
  - split; [reflexivity|]. rewrite Hlen. reflexivity.
Defined.

(** A query that prints nothing (sqlite3 prints nothing for no rows)
    means no events: the output is not parsed, and the fallback copy is
    not made. *)
Theorem empty_output_is_no_events (h : Host) (now : Z) (dbPath out : string) :
  getDbPath h = Normal dbPath ->
  execSync h (Sqlite3 dbPath (todaySql h now)) = Normal out ->
  Js.trim out = EmptyString ->
  fetchTodaysEvents h now = Normal [].
Proof.
  intros Hdb Hout Hblank. rewrite (fetch_with_database _ _ _ Hdb).
  unfold queryDirect, runQuery. rewrite Hout, Hblank. reflexivity.
Qed.

Lemma empty_output_is_no_events_witness :
  fetchTodaysEvents Fixture.emptyCalendar Sample.T = Normal [].
Proof.
  apply (empty_output_is_no_events Fixture.emptyCalendar Sample.T
           "/Users/me/Library/Calendars/Calendar.sqlitedb"%string "  "%string);
    reflexivity.
Defined.

(** ** The notes provider *)

Lemma joinWith_cons_nonempty (sep p : string) (rest : list string) :
  p <> EmptyString -> joinWith sep (p :: rest) <> EmptyString.
Proof.
  intros Hp. destruct p as [|c p]; [done|].
  destruct rest as [|q rest]; [done|].
  cbn [joinWith]. rewrite append_cons. discriminate.
Qed.

Lemma formatUtterance_nonempty (timeOf : string -> string)
    (u : GranolaTranscriptUtterance) :
  formatUtterance timeOf u <> EmptyString.
Proof. unfold formatUtterance. cbv zeta. rewrite append_cons. discriminate. Qed.

Lemma formatTranscript_empty (timeOf : string -> string)
    (utterances : list GranolaTranscriptUtterance) :
  formatTranscript timeOf utterances = EmptyString <-> utterances = [].
Proof.
  split; [|by intros ->].
  destruct utterances as [|u rest]; [done|]. intros H. exfalso.
  revert H. apply joinWith_cons_nonempty, formatUtterance_nonempty.
Qed.

(** A meeting counts as not ready exactly when its document has no
    rendered notes and its transcript has no utterance: a single
    utterance, even one without text, makes the transcript non-empty. *)
Theorem not_ready_iff_no_notes_no_utterances (timeOf : string -> string)
    (doc : GranolaDocument) (utterances : list GranolaTranscriptUtterance) :
  notReady (fetchMeeting doc (formatTranscript timeOf utterances)) = true <->
  panel doc = EmptyString /\ utterances = [].
Proof.
  unfold notReady, fetchMeeting. simpl.
  by rewrite andb_true_iff, !String.eqb_eq, formatTranscript_empty.
Qed.

Lemma fetchTranscript_not_ok (response : Response TranscriptBody) :
  ok response = false -> fetchTranscript (Normal response) = Normal [].
Proof.
  intros Hok. unfold fetchTranscript. rewrite Hok. simpl.
  by destruct (status response =? 404).
Qed.

(** An HTTP error of the transcript endpoint is not an error of the
    fire: the transcript counts as empty.  A document with notes is then
    handed to the pipeline without transcript; a document without notes
    is retried. *)
Theorem transcript_error_counts_as_empty (config : Config) (now : Z) (k : nat)
    (timeOf : string -> string) (e : CalendarEvent) (d : GranolaDocument)
    (response : Response TranscriptBody) (s : Scheduler) :
  suspended s !! k = Some (AwaitMeeting e d) ->
  clock s <= now ->
  ok response = false ->
  fetchMeetingFrom timeOf d (Normal response) = Normal (fetchMeeting d EmptyString) /\
  exists s',
    step config now (Settle k (transcriptOutcome timeOf (Normal response))) s
      = Some (Normal tt, s') /\
    stateFile s' = stateFile s /\
    (panel d <> EmptyString ->
     pipelineCalls s' = pipelineCalls s ++ [(ev_id e, fetchMeeting d EmptyString)] /\
     timers s' = timers s) /\
    (panel d = EmptyString ->
     pipelineCalls s' = pipelineCalls s /\
     timers s' = timers s ++ [ {| due := now + 120000; callback := OnRetry e |} ]).
Proof.
  intros Hk Hnow Hok.
  unfold fetchMeetingFrom, transcriptOutcome.
  rewrite (fetchTranscript_not_ok _ Hok). split; [done|].
  change (formatTranscript timeOf []) with EmptyString.
  rewrite (step_settle config now k _ (Transcript (Normal EmptyString))
             (afterMeeting e d (Normal EmptyString)) s Hk Hnow eq_refl).
  rewrite afterMeeting_eq. eexists. split; [reflexivity|].
  unfold notReady, fetchMeeting. simpl.
  destruct (String.eqb (panel d) EmptyString) eqn:Hpanel; simpl.
  - apply String.eqb_eq in Hpanel. repeat split; try done.
  - apply String.eqb_neq in Hpanel. repeat split; try done.
Qed.

Lemma transcript_error_counts_as_empty_witness :
  exists s',
    step Sample.config (Sample.T + Sample.minutes 36)
      (Settle 0%nat (transcriptOutcome Fixture.wallClock (Normal Fixture.serverError)))
      {| clock := Sample.T + Sample.minutes 35;
         scheduledEventIds := {[ "41"%string ]};
         stateFile := Absent; timers := [];
         suspended := [AwaitMeeting Sample.event Sample.after10];
         pipelineCalls := [] |}
    = Some (Normal tt, s') /\
    pipelineCalls s' = [("41"%string, fetchMeeting Sample.after10 EmptyString)].
Proof.
  destruct (transcript_error_counts_as_empty Sample.config
              (Sample.T + Sample.minutes 36) 0%nat Fixture.wallClock
              Sample.event Sample.after10 Fixture.serverError
              {| clock := Sample.T + Sample.minutes 35;
                 scheduledEventIds := {[ "41"%string ]};
                 stateFile := Absent; timers := [];
                 suspended := [AwaitMeeting Sample.event Sample.after10];
                 pipelineCalls := [] |})
    as (_ & s' & Hstep & _ & Hnotes & _).
  - reflexivity.
  - vm_compute. discriminate.
  - reflexivity.
  - exists s'. split; [exact Hstep|].
    destruct Hnotes as [Hcalls _]; [discriminate|]. exact Hcalls.
Defined.

(** *** Access tokens *)

Lemma tokenFromDisk_cases (w : TokenWorld) (now : Z) (c : Client) :
  (completes (readLocalTokens w) = false /\
   completes (fst (tokenFromDisk w now c)) = false /\
   snd (tokenFromDisk w now c) = c) \/
  (exists local,
     readLocalTokens w = Normal local /\
     tokenFromDisk w now c =
     (Normal (local_accessToken local),
      {| tokenState := Some {| accessToken := local_accessToken local;
                               refreshToken := local_refreshToken local;
                               expiresAt := now + 3600000 |};
         clientId := Some (local_clientId local) |})).
Proof.
  unfold tokenFromDisk. destruct (readLocalTokens w) as [local|err].
  - right. by exists local.
  - left. done.
Qed.

(** The token that [ensureToken] returns is the one the client then
    holds, and the client serves it again, without a request and without
    reading the disk, at any time more than sixty seconds before it
    expires. *)
Theorem returned_token_is_cached (w w' : TokenWorld) (c c' : Client)
    (token : string) :
  ensureToken w c = (Normal token, c') ->
  exists ts,
    tokenState c' = Some ts /\
    accessToken ts = token /\
    (now0 w' < expiresAt ts - 60000 -> ensureToken w' c' = (Normal token, c')).
Proof.
  intros Hcall.
  assert (Hheld : exists ts, tokenState c' = Some ts /\ accessToken ts = token).
  { revert Hcall. unfold ensureToken.
    destruct (tokenState c) as [ts|] eqn:Hts.
    - destruct (now0 w <? expiresAt ts - 60000).
      { intros [= <- <-]. eauto. }
      destruct (negb (String.eqb (refreshToken ts) EmptyString)).
      + destruct (refreshAccessToken w (refreshToken ts) (clientId c)) as [r|err].
        * intros [= <- <-]. simpl. eauto.
        * destruct (tokenFromDisk_cases w (now1 w) c)
            as [(_ & Hf & _) | (local & _ & ->)].
          -- intros H. rewrite H in Hf. discriminate Hf.
          -- intros [= <- <-]. simpl. eauto.
      + destruct (tokenFromDisk_cases w (now0 w) c)
          as [(_ & Hf & _) | (local & _ & ->)].
        * intros H. rewrite H in Hf. discriminate Hf.
        * intros [= <- <-]. simpl. eauto.
    - destruct (tokenFromDisk_cases w (now0 w) c)
        as [(_ & Hf & _) | (local & _ & ->)].
      + intros H. rewrite H in Hf. discriminate Hf.
      + intros [= <- <-]. simpl. eauto. }
  destruct Hheld as (ts & Hts & Htok). exists ts. repeat split; try done.
  intros Hvalid. unfold ensureToken. rewrite Hts.
  apply Z.ltb_lt in Hvalid. by rewrite Hvalid, Htok.
Qed.

Lemma returned_token_is_cached_witness :
  exists c',
    ensureToken Fixture.refreshDown Fixture.staleClient = (Normal "tok-disk"%string, c') /\
    ensureToken Fixture.refreshDown c' = (Normal "tok-disk"%string, c').
Proof.
  destruct (ensureToken Fixture.refreshDown Fixture.staleClient) as [r c'] eqn:Hcall.
  assert (Hr : r = Normal "tok-disk"%string).
  { vm_compute in Hcall. congruence. }
  subst r.
  destruct (returned_token_is_cached Fixture.refreshDown Fixture.refreshDown
              Fixture.staleClient c' "tok-disk" Hcall) as (ts & Hts & Htok & Hagain).
  exists c'. split; [reflexivity|]. apply Hagain.
  vm_compute in Hcall. injection Hcall as <-. simpl in Hts. injection Hts as <-.
  vm_compute. reflexivity.
Defined.

(** [ensureToken] fails only when the credentials on disk cannot be
    read, and then leaves the client as it was; a refresh request that
    fails is not an error, the token is taken from disk instead, valid
    for an hour from then. *)
Theorem token_fails_only_without_disk_credentials (w : TokenWorld) (c : Client) :
  (completes (fst (ensureToken w c)) = false ->
   completes (readLocalTokens w) = false /\ snd (ensureToken w c) = c) /\
  (forall ts local,
     tokenState c = Some ts ->
     expiresAt ts - 60000 <= now0 w ->
     refreshToken ts <> EmptyString ->
     completes (refreshAccessToken w (refreshToken ts) (clientId c)) = false ->
     readLocalTokens w = Normal local ->
     ensureToken w c =
     (Normal (local_accessToken local),
      {| tokenState := Some {| accessToken := local_accessToken local;
                               refreshToken := local_refreshToken local;
                               expiresAt := now1 w + 3600000 |};
         clientId := Some (local_clientId local) |})).
Proof.
  split.
  - unfold ensureToken.
    destruct (tokenState c) as [ts|].
    + destruct (now0 w <? expiresAt ts - 60000); [done|].
      destruct (negb (String.eqb (refreshToken ts) EmptyString)).
      * destruct (refreshAccessToken w (refreshToken ts) (clientId c)) as [r|err];
          [done|].
        destruct (tokenFromDisk_cases w (now1 w) c)
          as [(Hd & _ & Hc) | (local & _ & ->)]; [done | done].
      * destruct (tokenFromDisk_cases w (now0 w) c)
          as [(Hd & _ & Hc) | (local & _ & ->)]; [done | done].
    + destruct (tokenFromDisk_cases w (now0 w) c)
        as [(Hd & _ & Hc) | (local & _ & ->)]; [done | done].
  - intros ts local Hts Hexp Href Hfail Hlocal. unfold ensureToken. rewrite Hts.
    replace (now0 w <? expiresAt ts - 60000) with false
      by (symmetry; apply Z.ltb_ge; lia).
    apply String.eqb_neq in Href. rewrite Href. simpl.
    destruct (refreshAccessToken w (refreshToken ts) (clientId c)) as [r|err];
      [done|].
    unfold tokenFromDisk. by rewrite Hlocal.
Qed.

Lemma token_fails_only_without_disk_credentials_witness :
  fst (ensureToken Fixture.refreshDown Fixture.staleClient) = Normal "tok-disk"%string.
Proof.
  destruct (token_fails_only_without_disk_credentials Fixture.refreshDown
              Fixture.staleClient) as [_ Hfall].
  rewrite (Hfall {| accessToken := "tok-1"; refreshToken := "ref-1";
                    expiresAt := Sample.T + 30000 |}
                 {| local_accessToken := "tok-disk"; local_refreshToken := "ref-disk";
                    local_clientId := "client-1" |} eq_refl);
    [reflexivity | | | reflexivity | reflexivity].
  - vm_compute. discriminate.
  - discriminate.
Defined.

(** ** The pipeline *)

Lemma createJiraTickets_from (sv : Services) (tickets : list EngineeringTicket)
    (results : list JiraTicketResult) (calls : list ServiceCall) :
  fold_left
    (fun acc ticket =>
       let '(results, calls) := acc in
       match createJiraTicket sv ticket with
       | Normal result => (results ++ [result], calls ++ [CallJira ticket])
       | Throw _ => (results, calls ++ [CallJira ticket])
       end)
    tickets (results, calls)
  = (results ++ omap (created sv) tickets, calls ++ map CallJira tickets).
Proof.
  revert results calls. induction tickets as [|t tickets IH]; intros results calls.
  - simpl. by rewrite !app_nil_r.
  - simpl. unfold created at 1.
    destruct (createJiraTicket sv t) as [r|err]; rewrite IH; simpl;
      by rewrite <- ?app_assoc.
Qed.

Lemma createJiraTickets_eq (sv : Services) (tickets : list EngineeringTicket) :
  createJiraTickets sv tickets = (omap (created sv) tickets, map CallJira tickets).
Proof. unfold createJiraTickets. by rewrite createJiraTickets_from. Qed.

Lemma created_summary (sv : Services) (ticket : EngineeringTicket)
    (result : JiraTicketResult) :
  created sv ticket = Some result -> jira_summary result = ticket_summary ticket.
Proof.
  unfold created, createJiraTicket.
  destruct (jiraFetch sv ticket) as [response|]; [|done].
  destruct (negb (ok response)); [done|].
  destruct (json response) as [data|]; [|done].
  by intros [= <-].
Qed.

Lemma omap_sublist_summaries (sv : Services) (tickets : list EngineeringTicket) :
  map jira_summary (omap (created sv) tickets)
  `sublist_of` map ticket_summary tickets.
Proof.
  induction tickets as [|t tickets IH]; simpl; [constructor|].
  destruct (created sv t) as [r|] eqn:Hr; simpl.
  - rewrite (created_summary _ _ _ Hr). by constructor.
  - by constructor.
Qed.

Lemma omap_created_nil (sv : Services) (tickets : list EngineeringTicket) :
  (forall t, t ∈ tickets -> completes (createJiraTicket sv t) = false) ->
  omap (created sv) tickets = [].
Proof.
  induction tickets as [|t tickets IH]; intros Hall; [done|]. simpl.
  pose proof (Hall t (list_elem_of_here _ _)) as Ht. unfold created at 1.
  destruct (createJiraTicket sv t); [done|].
  apply IH. intros t' Ht'. apply Hall. by right.
Qed.

(** [createJiraTickets] asks JIRA for every ticket, in order, whatever
    happened to the tickets before it, and never throws; what it returns
    are the tickets JIRA created, in order, each under the summary it was
    requested with. *)
Theorem jira_failures_are_skipped (sv : Services) (tickets : list EngineeringTicket) :
  snd (createJiraTickets sv tickets) = map CallJira tickets /\
  fst (createJiraTickets sv tickets) = omap (created sv) tickets /\
  map jira_summary (fst (createJiraTickets sv tickets))
    `sublist_of` map ticket_summary tickets /\
  ((forall t, t ∈ tickets -> completes (createJiraTicket sv t) = true) ->
   map jira_summary (fst (createJiraTickets sv tickets)) = map ticket_summary tickets) /\
  ((forall t, t ∈ tickets -> completes (createJiraTicket sv t) = false) ->
   fst (createJiraTickets sv tickets) = []).
Proof.
  rewrite createJiraTickets_eq. simpl.
  split; [done|]. split; [done|]. split; [apply omap_sublist_summaries|]. split.
  - induction tickets as [|t tickets IH]; intros Hall; [done|]. simpl.
    destruct (created sv t) as [r|] eqn:Hr.
    + simpl. rewrite (created_summary _ _ _ Hr). f_equal.
      apply IH. intros t' Ht'. apply Hall. by right.
    + specialize (Hall t (list_elem_of_here _ _)). unfold created in Hr.
      destruct (createJiraTicket sv t); done.
  - apply omap_created_nil.
Qed.

Lemma jira_failures_are_skipped_witness :
  fst (createJiraTickets Fixture.jiraDown (engineeringTickets Fixture.found)) = [] /\
  map jira_summary
    (fst (createJiraTickets Fixture.allUp (engineeringTickets Fixture.found)))
  = ["Fix login"; "Try cache"]%string.
Proof.
  split.
  - apply (jira_failures_are_skipped Fixture.jiraDown
             (engineeringTickets Fixture.found)).
    intros t Ht. reflexivity.
  - destruct (jira_failures_are_skipped Fixture.allUp
                (engineeringTickets Fixture.found)) as (_ & _ & _ & Hall & _).
    rewrite Hall; [reflexivity|]. intros t Ht. reflexivity.
Defined.

Example jira_down_example :
  createJiraTickets Fixture.jiraDown (engineeringTickets Fixture.found)
  = ([], [CallJira (Fixture.ticket "Fix login" Bug);
          CallJira (Fixture.ticket "Try cache" Spike)]).
Proof. reflexivity. Qed.

Lemma processMeeting_after_extract (sv : Services) (meeting : MeetingData)
    (found : MeetingExtraction) :
  extractMeetingData sv meeting = Normal found ->
  processMeeting sv meeting =
  let tickets := omap (created sv) (engineeringTickets found) in
  let calls := CallExtract meeting ::
               map CallJira (engineeringTickets found) ++
               [CallSlack meeting tickets] in
  match postSlackSummary sv meeting found tickets with
  | Throw e => (Throw e, calls)
  | Normal ts =>
      (Normal {| meetingId := md_id meeting; meetingTitle := md_title meeting;
                 extraction := found; jiraTickets := tickets;
                 slackMessageTs := ts |}, calls)
  end.
Proof.
  intros Hfound. unfold processMeeting. rewrite Hfound.
  destruct (engineeringTickets found) as [|t tickets] eqn:Htickets.
  - simpl. by destruct (postSlackSummary sv meeting found []).
  - change (0 <? length (t :: tickets))%nat with true. cbv iota.
    rewrite createJiraTickets_eq. cbv zeta.
    by destruct (postSlackSummary sv meeting found _).
Qed.

(** [processMeeting] fails exactly when the extraction or the Slack post
    fails.  If the extraction fails nothing else is called; otherwise
    JIRA is asked for every engineering ticket (not at all if there is
    none) and then Slack is posted to, once, with the tickets that were
    created.  No failure of JIRA makes the pipeline fail. *)
Theorem pipeline_fails_only_on_extract_or_slack (sv : Services)
    (meeting : MeetingData) :
  (forall err,
     extractMeetingData sv meeting = Throw err ->
     processMeeting sv meeting = (Throw err, [CallExtract meeting])) /\
  (forall found,
     extractMeetingData sv meeting = Normal found ->
     let tickets := fst (createJiraTickets sv (engineeringTickets found)) in
     snd (processMeeting sv meeting) =
       CallExtract meeting :: map CallJira (engineeringTickets found) ++
       [CallSlack meeting tickets] /\
     completes (fst (processMeeting sv meeting)) =
       completes (postSlackSummary sv meeting found tickets) /\
     forall result,
       fst (processMeeting sv meeting) = Normal result ->
       meetingId result = md_id meeting /\ jiraTickets result = tickets /\
       extraction result = found).
Proof.
  split.
  - intros err Herr. unfold processMeeting. by rewrite Herr.
  - intros found Hfound. cbv zeta.
    rewrite (processMeeting_after_extract _ _ _ Hfound), createJiraTickets_eq.
    cbv zeta. simpl.
    destruct (postSlackSummary sv meeting found _) as [ts|err]; simpl.
    + split; [done|]. split; [done|]. by intros result [= <-].
    + split; [done|]. split; [done|]. done.
Qed.

Lemma pipeline_fails_only_on_extract_or_slack_witness :
  completes (fst (processMeeting Fixture.jiraDown Fixture.meeting)) = true /\
  snd (processMeeting Fixture.jiraDown Fixture.meeting) =
    [CallExtract Fixture.meeting;
     CallJira (Fixture.ticket "Fix login" Bug);
     CallJira (Fixture.ticket "Try cache" Spike);
     CallSlack Fixture.meeting []].
Proof.
  destruct (pipeline_fails_only_on_extract_or_slack Fixture.jiraDown Fixture.meeting)
    as [_ Hfound].
  destruct (Hfound Fixture.found eq_refl) as (Hcalls & Hok & _).
  split; [rewrite Hok; reflexivity | rewrite Hcalls; reflexivity].
Defined.



(** ** The command line *)

Lemma cliFetchMeeting_id (w : CliWorld) (doc : GranolaDocument) (m : MeetingData) :
  cliFetchMeeting w doc = Normal m -> md_id m = doc_id doc.
Proof.
  unfold cliFetchMeeting, fetchMeetingFrom.
  destruct (fetchTranscript _); [|done]. by intros [= <-].
Qed.

Lemma main_process_title (w : CliWorld) (args : list string) (f : StateFile) :
  configValid w = true ->
  head args <> Some "--id"%string ->
  main w ("process"%string :: args) f = processByTitle w args f.
Proof.
  intros Hcfg Hflag. unfold main. rewrite Hcfg. simpl.
  destruct args as [|flag [|wanted rest]]; try done.
  destruct (String.eqb flag "--id") eqn:Heq; [|done].
  apply String.eqb_eq in Heq. subst flag. done.
Qed.

(** [latest] and [process --id] leave a meeting alone that is in the
    store: the pipeline is not run, the store is not written, and the
    exit code is 0. *)
Theorem cli_skips_processed_meeting (w : CliWorld) (f : StateFile)
    (doc : GranolaDocument) (listed : list GranolaDocument) :
  configValid w = true ->
  isProcessed f (doc_id doc) = true ->
  completes (cliFetchMeeting w doc) = true ->
  (fetchDocuments (documentsResponse w 1) = Normal (doc :: listed) ->
   main w ["latest"%string] f = finished 0 f []) /\
  (fetchDocuments (documentsResponse w 100) = Normal listed ->
   doc_id doc <> EmptyString ->
   List.find (fun d => String.eqb (doc_id d) (doc_id doc)) listed = Some doc ->
   main w ["process"; "--id"; doc_id doc]%string f = finished 0 f []).
Proof.
  intros Hcfg Hdone Hfetch.
  destruct (cliFetchMeeting w doc) as [m|err] eqn:Hm; [|done].
  pose proof (cliFetchMeeting_id _ _ _ Hm) as Hid.
  split.
  - intros Hdocs. unfold main. rewrite Hcfg. simpl. rewrite Hdocs, Hm.
    unfold processUnlessDone. by rewrite Hid, Hdone.
  - intros Hdocs Hne Hfind. unfold main. rewrite Hcfg. simpl.
    apply String.eqb_neq in Hne. rewrite Hne. simpl.
    rewrite Hdocs, Hfind, Hm.
    unfold processUnlessDone. by rewrite Hid, Hdone.
Qed.

Lemma cli_skips_processed_meeting_witness :
  main Fixture.cliWorld ["latest"%string] Fixture.doneStore
    = finished 0 Fixture.doneStore [] /\
  main Fixture.cliWorld ["process"; "--id"; "late"]%string Fixture.doneStore
    = finished 0 Fixture.doneStore [].
Proof.
  destruct (cli_skips_processed_meeting Fixture.cliWorld Fixture.doneStore
              Sample.after10 []) as [Hlatest _]; try reflexivity.
  destruct (cli_skips_processed_meeting Fixture.cliWorld Fixture.doneStore
              Sample.after10 [Sample.after10]) as [_ Hid]; try reflexivity.
  split.
  - apply Hlatest. reflexivity.
  - apply Hid; [reflexivity | discriminate | reflexivity].
Defined.

(** [process <title>] does not ask the store: the first document whose
    title contains the search term is run through the pipeline even if
    it is marked as processed; the store then stays as it is. *)
Theorem cli_title_search_ignores_store (w : CliWorld) (f : StateFile)
    (args : list string) (listed : list GranolaDocument) (doc : GranolaDocument)
    (m : MeetingData) :
  configValid w = true ->
  head args <> Some "--id"%string ->
  Js.toLowerCase (joinWith " " args) <> EmptyString ->
  fetchDocuments (documentsResponse w 100) = Normal listed ->
  List.find (fun d => Js.includes (Js.toLowerCase (title d))
                        (Js.toLowerCase (joinWith " " args))) listed = Some doc ->
  cliFetchMeeting w doc = Normal m ->
  completes (fst (processMeeting (services w) m)) = true ->
  isProcessed f (doc_id doc) = true ->
  main w ("process"%string :: args) f = finished 0 f [m].
Proof.
  intros Hcfg Hflag Hterm Hdocs Hfind Hm Hrun Hdone.
  rewrite (main_process_title _ _ _ Hcfg Hflag). unfold processByTitle. cbv zeta.
  apply String.eqb_neq in Hterm. rewrite Hterm, Hdocs, Hfind, Hm.
  unfold processAndMark.
  destruct (fst (processMeeting (services w) m)); [|done].
  rewrite markProcessed_present; [done|].
  apply includesId_true. rewrite (cliFetchMeeting_id _ _ _ Hm). exact Hdone.
Qed.

Lemma cli_title_search_ignores_store_witness :
  exists m,
    main Fixture.cliWorld ["process"; "Sprint"; "PLAN"]%string Fixture.doneStore
      = finished 0 Fixture.doneStore [m] /\
    md_id m = "late"%string.
Proof.
  destruct (cliFetchMeeting Fixture.cliWorld Sample.after10) as [m|err] eqn:Hm;
    [|vm_compute in Hm; discriminate Hm].
  exists m. split.
  - apply (cli_title_search_ignores_store Fixture.cliWorld Fixture.doneStore
             ["Sprint"; "PLAN"]%string [Sample.after10] Sample.after10 m);
      try reflexivity; try discriminate; try exact Hm.
  - vm_compute in Hm. injection Hm as <-. reflexivity.
Defined.

Lemma finished_sound (w : CliWorld) (argv : list string) (f : StateFile)
    (code : Z) :
  code = 0 \/ code = 1 -> cliSound w argv f (finished code f []).
Proof. intros Hcode. split; [exact Hcode | by left]. Qed.

Lemma processAndMark_sound (w : CliWorld) (argv : list string) (m : MeetingData)
    (f : StateFile) :
  cliSound w argv f (processAndMark w m f).
Proof.
  unfold processAndMark, cliSound.
  destruct (fst (processMeeting (services w) m)) eqn:Hrun; simpl.
  - split; [by left|]. left. rewrite Hrun. repeat split.
    apply markProcessed_marks.
  - split; [by right|]. right. by rewrite Hrun.
Qed.

Lemma processUnlessDone_sound (w : CliWorld) (argv : list string)
    (m : MeetingData) (f : StateFile) :
  cliSound w argv f (processUnlessDone w m f).
Proof.
  unfold processUnlessDone. destruct (isProcessed f (md_id m)).
  - apply finished_sound. by left.
  - apply processAndMark_sound.
Qed.

Lemma processByTitle_sound (w : CliWorld) (argv args : list string)
    (f : StateFile) :
  cliSound w argv f (processByTitle w args f).
Proof.
  unfold processByTitle. cbv zeta.
  destruct (String.eqb _ EmptyString); [apply finished_sound; by right|].
  destruct (fetchDocuments _) as [listed|]; [|apply finished_sound; by right].
  destruct (List.find _ listed) as [doc|]; [|apply finished_sound; by right].
  destruct (cliFetchMeeting w doc) as [m|];
    [apply processAndMark_sound | apply finished_sound; by right].
Qed.

Lemma main_sound (w : CliWorld) (argv : list string) (f : StateFile) :
  cliSound w argv f (main w argv f).
Proof.
  unfold main.
  destruct (configValid w); simpl; [|apply finished_sound; by right].
  destruct argv as [|command args]; [apply finished_sound; by left|].
  destruct (String.eqb command EmptyString || String.eqb command "--help"
            || String.eqb command "-h"); [apply finished_sound; by left|].
  destruct (String.eqb command "reset") eqn:Hreset.
  { apply String.eqb_eq in Hreset. subst command.
    split; [by left|]. right. done. }
  destruct (String.eqb command "list").
  { destruct (fetchDocuments _); apply finished_sound; auto. }
  destruct (String.eqb command "latest").
  { destruct (fetchDocuments _) as [[|doc rest]|]; try (apply finished_sound; auto).
    destruct (cliFetchMeeting w doc);
      [apply processUnlessDone_sound | apply finished_sound; auto]. }
  destruct (String.eqb command "process"); [|apply finished_sound; by right].
  destruct args as [|flag [|wanted rest]]; try apply processByTitle_sound.
  destruct (String.eqb flag "--id" && negb (String.eqb wanted EmptyString));
    [|apply processByTitle_sound].
  destruct (fetchDocuments _) as [listed|]; [|apply finished_sound; by right].
  destruct (List.find _ listed) as [doc|]; [|apply finished_sound; by right].
  destruct (cliFetchMeeting w doc);
    [apply processUnlessDone_sound | apply finished_sound; by right].
Qed.

(** Whatever the arguments and whatever the services answer, a run of
    the command line exits with 0 or 1 and runs the pipeline at most
    once.  It writes the store only in two ways: [reset] clears it, and
    a pipeline run that succeeded marks the id of the meeting it ran on;
    a run whose pipeline failed exits with 1 and leaves the store as it
    was.  Without a valid configuration nothing is done at all, not even
    a reset. *)
Theorem cli_writes_only_what_it_processed (w : CliWorld) (argv : list string)
    (f : StateFile) :
  let r := main w argv f in
  (exitCode r = 0 \/ exitCode r = 1) /\
  (configValid w = false -> r = finished 1 f []) /\
  match pipelineRun r with
  | [] => stateAfter r = f \/
          (head argv = Some "reset"%string /\ r = finished 0 resetState [])
  | [m] =>
      (exitCode r = 0 /\
       stateAfter r = markProcessed (cli_now w) (md_id m) f /\
       isProcessed (stateAfter r) (md_id m) = true /\
       completes (fst (processMeeting (services w) m)) = true) \/
      (exitCode r = 1 /\ stateAfter r = f /\
       completes (fst (processMeeting (services w) m)) = false)
  | _ => False
  end.
Proof.
  cbv zeta. destruct (main_sound w argv f) as [Hcode Hstore].
  split; [exact Hcode|]. split; [|exact Hstore].
  intros Hcfg. unfold main. by rewrite Hcfg.
Qed.

Lemma cli_writes_only_what_it_processed_witness :
  main Fixture.cliWorld ["reset"%string] Fixture.doneStore
    = finished 0 resetState [] /\
  main {| configValid := false;
          documentsResponse := documentsResponse Fixture.cliWorld;
          transcriptResponse := transcriptResponse Fixture.cliWorld;
          timeOf := Fixture.wallClock; services := Fixture.allUp;
          cli_now := 0 |} ["reset"%string] Fixture.doneStore
    = finished 1 Fixture.doneStore [].
Proof.
  split; [reflexivity|].
  apply (cli_writes_only_what_it_processed
           {| configValid := false;
              documentsResponse := documentsResponse Fixture.cliWorld;
              transcriptResponse := transcriptResponse Fixture.cliWorld;
              timeOf := Fixture.wallClock; services := Fixture.allUp;
              cli_now := 0 |} ["reset"%string] Fixture.doneStore).
  reflexivity.
Defined.

Example cli_latest_example :
  exitCode (main Fixture.cliWorld ["latest"%string] Absent) = 0 /\
  processedIds (readState (stateAfter (main Fixture.cliWorld ["latest"%string] Absent)))
    = ["late"%string] /\
  map md_id (pipelineRun (main Fixture.cliWorld ["latest"%string] Absent))
    = ["late"%string].
Proof. vm_compute. auto. Qed.

